(** * Gauge: parallel execution coordinator and timeout configuration

    A shallow embedding of [execution/parallelExecution.go] and of the
    timeout readers of [config/configuration.go], with the properties the
    specification states about them.

    Conventions.
    - Go's [int], [int64] and [time.Duration] are 64-bit two's complement
      integers: they are [Z] values, and every arithmetic operation that can
      leave the range is followed by [wrap64].
    - A Go [string] is a sequence of bytes: it is a Rocq [string], whose
      characters are the 8-bit [ascii] values.
    - A slice is a [list]; a pointer that may be [nil] is an [option].
    - A Go map is a [gmap]; a missing key reads as the zero value.
    - Calls that leave the package ([runner.Start], the single-stream
      executor, the logger, the result channel, the wait group) are recorded
      as events of a trace. *)

From Stdlib Require Import ZArith Lia List String Ascii Permutation Bool.
From stdpp Require Import base option list gmap strings.

Local Open Scope Z_scope.

(* ===================================================================== *)
(** * Definitions *)
(* ===================================================================== *)

(** ** Machine integers *)

Module GoInt.

Definition min_int64 : Z := - 2 ^ 63.
Definition max_int64 : Z := 2 ^ 63 - 1.

Definition in_range (z : Z) : Prop := min_int64 <= z <= max_int64.

Definition in_rangeb (z : Z) : bool := (min_int64 <=? z) && (z <=? max_int64).

(** The value a 64-bit signed register holds after computing [z]. *)
Definition wrap64 (z : Z) : Z := (z + 2 ^ 63) mod 2 ^ 64 - 2 ^ 63.

Definition add (x y : Z) : Z := wrap64 (x + y).
Definition mul (x y : Z) : Z := wrap64 (x * y).

End GoInt.

(** ** The parts of Go's [strings] and [strconv] packages the code calls *)

Module GoStrings.

Definition isUpper (c : ascii) : bool :=
  let n := N_of_ascii c in ((65 <=? n) && (n <=? 90))%N.

(** ['A'..'Z'] move to ['a'..'z'], every other byte stays. *)
Definition lowerByte (c : ascii) : ascii :=
  if isUpper c then ascii_of_N (N_of_ascii c + 32) else c.

(** [strings.ToLower].  On a string of ASCII bytes Go lowers each byte as
    [lowerByte] does.  A byte of 0x80 and above belongs to a multi-byte
    rune, and the lower-case form of such a rune is again outside ASCII
    unless the rune is U+0130 (to [i]) or U+212A (to [k]); the bytes of
    such runes are kept here as they are.  The two models agree on every
    comparison of the lowered string with a word written without [i] and
    [k], which is the only use the code makes of it. *)
Fixpoint ToLower (s : string) : string :=
  match s with
  | EmptyString => EmptyString
  | String c s' => String (lowerByte c) (ToLower s')
  end.

Definition isLower (c : ascii) : bool :=
  let n := N_of_ascii c in ((97 <=? n) && (n <=? 122))%N.

Definition upperByte (c : ascii) : ascii :=
  if isLower c then ascii_of_N (N_of_ascii c - 32) else c.

(** [strings.ToUpper], on the same terms as [ToLower]: the code applies it
    to a constant of ASCII letters and underscores only. *)
Fixpoint ToUpper (s : string) : string :=
  match s with
  | EmptyString => EmptyString
  | String c s' => String (upperByte c) (ToUpper s')
  end.

(** The ASCII white space of [strings.TrimSpace]: tab, line feed, vertical
    tab, form feed, carriage return and space. *)
Definition isAsciiSpace (c : ascii) : bool :=
  let n := N_of_ascii c in (((9 <=? n) && (n <=? 13)) || (n =? 32))%N.

(** The white space runes outside ASCII ([unicode.IsSpace]), by their UTF-8
    encodings: U+0085 and U+00A0 take two bytes; U+1680, U+2000 to U+200A,
    U+2028, U+2029, U+202F, U+205F and U+3000 take three. *)
Definition isSpace2 (b1 b2 : ascii) : bool :=
  let n1 := N_of_ascii b1 in
  let n2 := N_of_ascii b2 in
  ((n1 =? 194) && ((n2 =? 133) || (n2 =? 160)))%N.

Definition isSpace3 (b1 b2 b3 : ascii) : bool :=
  let n1 := N_of_ascii b1 in
  let n2 := N_of_ascii b2 in
  let n3 := N_of_ascii b3 in
  (((n1 =? 225) && (n2 =? 154) && (n3 =? 128))
   || ((n1 =? 226) && (n2 =? 128)
       && (((128 <=? n3) && (n3 <=? 138)) || (n3 =? 168) || (n3 =? 169) || (n3 =? 175)))
   || ((n1 =? 226) && (n2 =? 129) && (n3 =? 159))
   || ((n1 =? 227) && (n2 =? 128) && (n3 =? 128)))%N.

(** Dropping white space runes from the front of the bytes. *)
Fixpoint trimLeft (l : list ascii) : list ascii :=
  match l with
  | [] => []
  | b1 :: l1 =>
      if isAsciiSpace b1 then trimLeft l1
      else match l1 with
           | b2 :: l2 =>
               if isSpace2 b1 b2 then trimLeft l2
               else match l2 with
                    | b3 :: l3 => if isSpace3 b1 b2 b3 then trimLeft l3 else l
                    | [] => l
                    end
           | [] => l
           end
  end.

(** The same from the back, on the bytes in reverse order: the last byte of
    a rune comes first. *)
Fixpoint trimLeftRev (l : list ascii) : list ascii :=
  match l with
  | [] => []
  | b1 :: l1 =>
      if isAsciiSpace b1 then trimLeftRev l1
      else match l1 with
           | b2 :: l2 =>
               if isSpace2 b2 b1 then trimLeftRev l2
               else match l2 with
                    | b3 :: l3 => if isSpace3 b3 b2 b1 then trimLeftRev l3 else l
                    | [] => l
                    end
           | [] => l
           end
  end.

Definition trimRight (l : list ascii) : list ascii := rev (trimLeftRev (rev l)).

(** [strings.TrimSpace]: the string without its leading and trailing white
    space runes. *)
Definition TrimSpace (s : string) : string :=
  string_of_list_ascii (trimRight (trimLeft (list_ascii_of_string s))).

End GoStrings.

Module Strconv.

Definition digitOf (c : ascii) : option Z :=
  let n := N_of_ascii c in
  if ((48 <=? n) && (n <=? 57))%N then Some (Z.of_N n - 48) else None.

(** The loop [n = n*10 + digit] over the digits, failing on any other
    byte. *)
Fixpoint parseDigits (s : string) (acc : Z) : option Z :=
  match s with
  | EmptyString => Some acc
  | String c s' =>
      match digitOf c with
      | Some d => parseDigits s' (acc * 10 + d)
      | None => None
      end
  end.

(** An optional sign, then at least one digit. *)
Definition parseSigned (s : string) : option Z :=
  match s with
  | EmptyString => None
  | String c s' =>
      if Ascii.eqb c "-" then
        match s' with
        | EmptyString => None
        | _ => Z.opp <$> parseDigits s' 0
        end
      else if Ascii.eqb c "+" then
        match s' with
        | EmptyString => None
        | _ => parseDigits s' 0
        end
      else parseDigits s 0
  end.

(** [strconv.Atoi]: [None] stands for a non-nil error, which is either a
    syntax error or a value outside the range of [int]. *)
Definition Atoi (s : string) : option Z :=
  match parseSigned s with
  | Some v => if GoInt.in_rangeb v then Some v else None
  | None => None
  end.

(** [strconv.ParseBool]: it accepts twelve spellings and nothing else;
    [None] stands for a non-nil error. *)
Definition ParseBool (str : string) : option bool :=
  if existsb (String.eqb str) ["1"; "t"; "T"; "TRUE"; "true"; "True"] then Some true
  else if existsb (String.eqb str) ["0"; "f"; "F"; "FALSE"; "false"; "False"] then Some false
  else None.

End Strconv.

(** ** [config/configuration.go] *)

Module Config.

(** [time.Duration]: a count of nanoseconds. *)
Definition Duration : Type := Z.

Definition Nanosecond : Duration := 1.
Definition Millisecond : Duration := 1000000.
Definition Second : Duration := 1000000000.

Definition runnerConnectionTimeout : string := "runner_connection_timeout".
Definition pluginConnectionTimeout : string := "plugin_connection_timeout".
Definition pluginKillTimeOut : string := "plugin_kill_timeout".

Definition defaultRunnerConnectionTimeout : Duration := GoInt.mul Second 25.
Definition defaultPluginConnectionTimeout : Duration := GoInt.mul Second 10.
Definition defaultPluginKillTimeout : Duration := GoInt.mul Second 4.

(** What [common.GetGaugeConfiguration] hands back: the properties, or the
    text of the error it returns. *)
Definition Properties : Type := (gmap string string + string)%type.

(** A call yields its value together with the warnings it logged on
    [APILog]. *)
Definition Logged (A : Type) : Type := (list string * A)%type.

Definition value {A} (m : Logged A) : A := snd m.
Definition warnings {A} (m : Logged A) : list string := fst m.

Definition getFromConfig (props : Properties) (propertyName : string) : Logged string :=
  match props with
  | inr err =>
      (["Failed to get configuration from Gauge properties file. Error: " +:+ err], "")
  | inl config => ([], default "" (config !! propertyName))
  end.

Definition convertToTime (value : string) (defaultValue : Duration) (name : string)
  : Logged Duration :=
  match Strconv.Atoi value with
  | None =>
      (["Incorrect value for " +:+ name +:+ " in property file. Cannot convert "
          +:+ value +:+ " to time"], defaultValue)
  | Some intValue => ([], GoInt.mul Millisecond intValue)
  end.

Definition RunnerConnectionTimeout (props : Properties) : Logged Duration :=
  let '(w1, intervalString) := getFromConfig props runnerConnectionTimeout in
  let '(w2, d) :=
    convertToTime intervalString defaultRunnerConnectionTimeout runnerConnectionTimeout in
  (w1 ++ w2, d).

Definition PluginConnectionTimeout (props : Properties) : Logged Duration :=
  let '(w1, intervalString) := getFromConfig props pluginConnectionTimeout in
  let '(w2, d) :=
    convertToTime intervalString defaultPluginConnectionTimeout pluginConnectionTimeout in
  (w1 ++ w2, d).

Definition PluginKillTimeout (props : Properties) : Logged Duration :=
  let '(w1, intervalString) := getFromConfig props pluginKillTimeOut in
  let '(w2, d) :=
    convertToTime intervalString defaultPluginKillTimeout pluginKillTimeOut in
  (w1 ++ w2, d).

Definition runnerRequestTimeout : string := "runner_request_timeout".
Definition ideRequestTimeout : string := "ide_request_timeout".
Definition checkUpdates : string := "check_updates".
Definition telemetryEnabled : string := "gauge_telemetry_enabled".
Definition telemetryLoggingEnabled : string := "gauge_telemetry_log_enabled".
Definition gaugeRepositoryURL : string := "gauge_repository_url".
Definition gaugeUpdateURL : string := "gauge_update_url".
Definition gaugeTemplatesURL : string := "gauge_templates_url".

Definition defaultRefactorTimeout : Duration := GoInt.mul Second 10.
Definition defaultRunnerRequestTimeout : Duration := GoInt.mul Second 30.
Definition defaultIdeRequestTimeout : Duration := GoInt.mul Second 30.

(** The environment of the process; [os.Getenv] of a variable that is not
    set is the empty string. *)
Definition Getenv (env : gmap string string) (key : string) : string :=
  default "" (env !! key).

Definition convertToBool (value : string) (property : string) (defaultValue : bool)
  : Logged bool :=
  match Strconv.ParseBool (GoStrings.TrimSpace value) with
  | None =>
      (["Incorrect value for " +:+ property +:+ " in property file. Cannot convert "
          +:+ value +:+ " to boolean."], defaultValue)
  | Some boolValue => ([], boolValue)
  end.

Definition CheckUpdates (props : Properties) : Logged bool :=
  let '(w1, allow) := getFromConfig props checkUpdates in
  let '(w2, b) := convertToBool allow checkUpdates true in
  (w1 ++ w2, b).

Definition RefactorTimeout : Duration := defaultRefactorTimeout.

Definition RunnerRequestTimeout (env : gmap string string) (props : Properties)
  : Logged Duration :=
  let intervalString := Getenv env runnerRequestTimeout in
  let '(w1, intervalString) :=
    if String.eqb intervalString "" then getFromConfig props runnerRequestTimeout
    else ([], intervalString) in
  let '(w2, d) :=
    convertToTime intervalString defaultRunnerRequestTimeout runnerRequestTimeout in
  (w1 ++ w2, d).

Definition IdeRequestTimeout (env : gmap string string) (props : Properties)
  : Logged Duration :=
  let intervalString := Getenv env ideRequestTimeout in
  let '(w1, intervalString) :=
    if String.eqb intervalString "" then getFromConfig props ideRequestTimeout
    else ([], intervalString) in
  let '(w2, d) :=
    convertToTime intervalString defaultIdeRequestTimeout ideRequestTimeout in
  (w1 ++ w2, d).

Definition GaugeRepositoryUrl (props : Properties) : Logged string :=
  getFromConfig props gaugeRepositoryURL.

Definition GaugeUpdateUrl (props : Properties) : Logged string :=
  getFromConfig props gaugeUpdateURL.

Definition GaugeTemplatesUrl (props : Properties) : Logged string :=
  getFromConfig props gaugeTemplatesURL.

Definition TelemetryEnabled (env : gmap string string) (props : Properties)
  : Logged bool :=
  let e := Getenv env (GoStrings.ToUpper telemetryEnabled) in
  let '(w1, e) :=
    if String.eqb e "" then getFromConfig props telemetryEnabled else ([], e) in
  let '(w2, b) := convertToBool e telemetryEnabled true in
  (w1 ++ w2, b).

Definition TelemetryLogEnabled (props : Properties) : Logged bool :=
  let '(w1, log) := getFromConfig props telemetryLoggingEnabled in
  let '(w2, b) := convertToBool log telemetryLoggingEnabled false in
  (w1 ++ w2, b).

(** *** [SetProjectRoot]

    The package variable [ProjectRoot] and the environment of the process
    are the state.  The two functions of the package [common] are
    parameters: [GetProjectRootFromSpecPath] gives a root or the text of an
    error, [SetEnvVariable] gives the new environment or the text of an
    error. *)

Record ProjectState : Type := {
  ProjectRoot : string;
  environ : gmap string string
}.

Section ProjectRoot.

Variable GaugeProjectRootEnv : string.
Variable GetProjectRootFromSpecPath : string -> string + string.
Variable SetEnvVariable :
  string -> string -> gmap string string -> gmap string string + string.

(** A call returns the new state and the error, [None] for [nil]. *)
Definition setCurrentProjectEnvVariable (st : ProjectState) : ProjectState * option string :=
  match SetEnvVariable GaugeProjectRootEnv (ProjectRoot st) (environ st) with
  | inl env' => ({| ProjectRoot := ProjectRoot st; environ := env' |}, None)
  | inr err => (st, Some err)
  end.

Definition SetProjectRoot (args : list string) (st : ProjectState)
  : ProjectState * option string :=
  if negb (String.eqb (ProjectRoot st) "") then setCurrentProjectEnvVariable st
  else
    let value := match args with
                 | [] => ""
                 | arg0 :: _ => arg0
                 end in
    match GetProjectRootFromSpecPath value with
    | inr err => (st, Some err)
    | inl root =>
        setCurrentProjectEnvVariable {| ProjectRoot := root; environ := environ st |}
    end.

End ProjectRoot.

End Config.

(** ** [execution/parallelExecution.go] *)

Module Execution.

Definition nl : string := String (ascii_of_nat 10) EmptyString.

(** *** Types of the neighbouring packages *)

(** Modelled from the spec: [gauge.Specification] is not under src/; a
    specification is a named unit of work, identified by its name. *)
Record Specification : Type := { FileName : string }.

(** Modelled from the spec: [gauge.SpecCollection] is not under src/; an
    ordered, sizeable collection of specifications that exposes its total
    count and the names it contains. *)
Record SpecCollection : Type := { Specs : list Specification }.

Definition Size (s : SpecCollection) : Z := Z.of_nat (length (Specs s)).
Definition SpecNames (s : SpecCollection) : list string := map FileName (Specs s).

(** Modelled from the spec: [result.SpecResult] is not under src/; one entry
    of a stream's ordered spec results.  [Skipped] is the flag the skipped
    count is computed from. *)
Record SpecResult : Type := {
  SpecFile : string;
  SpecIsFailed : bool;
  Skipped : bool
}.

(** Modelled from the spec: the type of a pre- or post-suite hook result is
    not under src/; the code only tests it against [nil] and copies it. *)
Record HookFailure : Type := { HookMessage : string }.

Record streamExecError : Type := {
  specsSkipped : list string;
  message : string
}.

(** The values of Go's [error] interface that this file builds: a
    [streamExecError], or the error [fmt.Errorf] returns for a text. *)
Inductive error : Type :=
| StreamExecErr (s : streamExecError)
| Errorf (text : string).

(** Modelled from the spec: [result.SuiteResult] is not under src/; a
    per-stream or aggregate suite result: failed-spec count, ordered spec
    results, failure flag, optional pre- and post-suite hook results,
    unhandled errors, skipped count, execution time, and the tags and
    timestamp it was created with. *)
Record SuiteResult : Type := {
  SpecResults : list SpecResult;
  PreSuite : option HookFailure;
  PostSuite : option HookFailure;
  IsFailed : bool;
  SpecsFailedCount : Z;
  ExecutionTime : Z;
  UnhandledErrors : list error;
  Tags : string;
  Timestamp : Z;
  SpecsSkippedCount : Z
}.

(** The struct literal [&result.SuiteResult{UnhandledErrors: errs}]: every
    other field has its zero value. *)
Definition SuiteResult_withErrors (errs : list error) : SuiteResult :=
  {| SpecResults := []; PreSuite := None; PostSuite := None; IsFailed := false;
     SpecsFailedCount := 0; ExecutionTime := 0; UnhandledErrors := errs;
     Tags := ""; Timestamp := 0; SpecsSkippedCount := 0 |}.

(** Modelled from the spec: [result.NewSuiteResult] is not under src/; the
    aggregate is created once, empty, at aggregation time: no failed specs,
    no spec results, failure flag clear, no hook results, no errors. *)
Definition NewSuiteResult (tags : string) (startTime : Z) : SuiteResult :=
  {| SpecResults := []; PreSuite := None; PostSuite := None; IsFailed := false;
     SpecsFailedCount := 0; ExecutionTime := 0; UnhandledErrors := [];
     Tags := tags; Timestamp := startTime; SpecsSkippedCount := 0 |}.

Definition countSkipped (l : list SpecResult) : Z :=
  Z.of_nat (length (filter (fun sr => Skipped sr = true) l)).

(** Modelled from the spec: [SuiteResult.SetSpecsSkippedCount] is not under
    src/; the skipped count is recomputed from the aggregate's own spec
    results, not summed from the streams. *)
Definition SetSpecsSkippedCount (sr : SuiteResult) : SuiteResult :=
  {| SpecResults := SpecResults sr; PreSuite := PreSuite sr; PostSuite := PostSuite sr;
     IsFailed := IsFailed sr; SpecsFailedCount := SpecsFailedCount sr;
     ExecutionTime := ExecutionTime sr; UnhandledErrors := UnhandledErrors sr;
     Tags := Tags sr; Timestamp := Timestamp sr;
     SpecsSkippedCount := countSkipped (SpecResults sr) |}.

(** *** Strategy selection *)

Definition Eager : string := "eager".
Definition Lazy : string := "lazy".

(** The package variable [Strategy] is an argument. *)
Definition isLazy (Strategy : string) : bool :=
  String.eqb (GoStrings.ToLower Strategy) Lazy.

Definition isValidStrategy (strategy : string) : bool :=
  let strategy := GoStrings.ToLower strategy in
  String.eqb strategy Lazy || String.eqb strategy Eager.

(** *** [streamExecError.Error] *)

(** [fmt.Sprintf("%s\n", spec)] *)
Definition Sprintf_line (spec : string) : string := spec +:+ nl.

Definition Error (s : streamExecError) : string :=
  let specNames :=
    fold_left (fun specNames spec => specNames +:+ Sprintf_line spec) (specsSkipped s) "" in
  "The following specifications could not be executed:" +:+ nl
    +:+ specNames +:+ "Reason : " +:+ message s +:+ ".".

(** *** The coordinator *)

(** [parallelExecution], with the fields the functions below read; the
    manifest, plugin handler and validation maps are only handed on to the
    collaborators. *)
Record parallelExecution : Type := {
  specCollection : SpecCollection;
  numberOfExecutionStreams : Z;
  startTime : Z
}.

Definition numberOfStreams (e : parallelExecution) : Z :=
  let nStreams := numberOfExecutionStreams e in
  let size := Size (specCollection e) in
  if nStreams >? size then size else nStreams.

(** The body of the loop of [aggregateResults]: [r] is the aggregate so
    far, [result] the stream result being folded in. *)
Definition accumulate (r result : SuiteResult) : SuiteResult :=
  {| SpecsFailedCount := GoInt.add (SpecsFailedCount r) (SpecsFailedCount result);
     SpecResults := SpecResults r ++ SpecResults result;
     IsFailed := if IsFailed result then true else IsFailed r;
     PreSuite := match PreSuite result with
                 | Some h => Some h
                 | None => PreSuite r
                 end;
     PostSuite := match PostSuite result with
                  | Some h => Some h
                  | None => PostSuite r
                  end;
     UnhandledErrors := match UnhandledErrors result with
                        | [] => UnhandledErrors r
                        | errs => UnhandledErrors r ++ errs
                        end;
     ExecutionTime := ExecutionTime r;
     Tags := Tags r; Timestamp := Timestamp r;
     SpecsSkippedCount := SpecsSkippedCount r |}.

Definition setExecutionTime (r : SuiteResult) (t : Z) : SuiteResult :=
  {| SpecResults := SpecResults r; PreSuite := PreSuite r; PostSuite := PostSuite r;
     IsFailed := IsFailed r; SpecsFailedCount := SpecsFailedCount r;
     ExecutionTime := t; UnhandledErrors := UnhandledErrors r;
     Tags := Tags r; Timestamp := Timestamp r;
     SpecsSkippedCount := SpecsSkippedCount r |}.

(** [aggregateResults]: the value it stores in [e.suiteResult].
    [ExecuteTags] is the package variable of that name and [since] is
    [time.Since(e.startTime)] read at the end of the loop. *)
Definition aggregateResults (ExecuteTags : string) (e : parallelExecution)
    (since : Config.Duration) (suiteResults : list SuiteResult) : SuiteResult :=
  let r := NewSuiteResult ExecuteTags (startTime e) in
  let r := fold_left accumulate suiteResults r in
  let r := setExecutionTime r (Z.quot since 1000000) in
  SetSpecsSkippedCount r.

(** *** Stream workers

    A stream worker is a goroutine.  What it does to the world outside is
    recorded as a trace of events, in program order. *)

Section Workers.

(** [runner.Runner]: the handle of a running worker process. *)
Variable Runner : Type.

Inductive Event : Type :=
| EvRunnerStart (stream : Z)
| EvLogErrorf (text : string)
| EvLogDebug (format : string) (arg : Z)
| EvExecute (s : SpecCollection) (runner : Runner) (stream : Z)
| EvKill (runner : Runner)
| EvSend (res : SuiteResult)
| EvWgDone.

Definition Trace : Type := list Event.

(** A computation returns a value and the events it performed. *)
Definition M (A : Type) : Type := (A * Trace)%type.

Definition ret {A} (a : A) : M A := (a, []).

Definition bind {A B} (m : M A) (k : A -> M B) : M B :=
  let '(a, t1) := m in
  let '(b, t2) := k a in
  (b, t1 ++ t2).

Definition emit (ev : Event) : M unit := (tt, [ev]).

Definition trace {A} (m : M A) : Trace := snd m.

(** [defer d] at the head of a function whose body is [body]. *)
Definition defer {A} (d : M unit) (body : M A) : M A :=
  bind body (fun a => bind d (fun _ => ret a)).

(** The outcome of [runner.Start] for the reporter of a stream: a
    handle, or the text of the error. *)
Variable runner_Start : Z -> Runner + string.

(** The suite result the single-stream executor leaves in
    [se.suiteResult] when [se.execute()] returns. *)
Variable simpleExecute : SpecCollection -> Runner -> Z -> SuiteResult.

(** [filter.DistributeSpecs], which is not under src/. *)
Variable DistributeSpecs : list Specification -> Z -> list SpecCollection.

Definition Start (stream : Z) : M (Runner + string) :=
  bind (emit (EvRunnerStart stream)) (fun _ => ret (runner_Start stream)).

Definition execute (s : SpecCollection) (runner : Runner) (stream : Z) : M SuiteResult :=
  bind (emit (EvExecute s runner stream)) (fun _ => ret (simpleExecute s runner stream)).

Definition Kill (runner : Runner) : M unit := emit (EvKill runner).
Definition send (res : SuiteResult) : M unit := emit (EvSend res).
Definition wgDone : M unit := emit EvWgDone.

Definition startSpecsExecutionWithRunner (s : SpecCollection) (runner : Runner)
    (stream : Z) : M unit :=
  bind (execute s runner stream) (fun suiteResult =>
  bind (Kill runner) (fun _ =>
  send suiteResult)).

Definition startStream (s : SpecCollection) (stream : Z) : M unit :=
  defer wgDone
    (bind (Start stream) (fun started =>
     match started with
     | inr err =>
         bind (emit (EvLogErrorf ("Failed to start runner. " +:+ err))) (fun _ =>
         send (SuiteResult_withErrors [Errorf ("Failed to start runner. " +:+ err)]))
     | inl runner => startSpecsExecutionWithRunner s runner stream
     end)).

Definition startSpecsExecution (s : SpecCollection) (stream : Z) : M unit :=
  defer wgDone
    (bind (Start stream) (fun started =>
     match started with
     | inr err =>
         bind (emit (EvLogErrorf ("Failed to start runner. " +:+ err))) (fun _ =>
         bind (emit (EvLogDebug "Skipping %d specifications" (Size s))) (fun _ =>
         send (SuiteResult_withErrors
                 [StreamExecErr
                    {| specsSkipped := SpecNames s;
                       message := "Failed to start runner. " +:+ err |}])))
     | inl runner => startSpecsExecutionWithRunner s runner stream
     end)).

(** The goroutines [executeLazily] starts, in the order of its loop:
    every stream is handed the whole collection. *)
Definition executeLazily (e : parallelExecution) (totalStreams : Z) : list (M unit) :=
  map (fun i => startStream (specCollection e) (Z.of_nat i + 1))
      (seq 0 (Z.to_nat totalStreams)).

(** The goroutines [executeEagerly] starts: stream [i+1] is handed
    bucket [i]. *)
Definition executeEagerly (e : parallelExecution) (distributions : Z) : list (M unit) :=
  let specs := DistributeSpecs (Specs (specCollection e)) distributions in
  imap (fun i s => startSpecsExecution s (Z.of_nat i + 1)) specs.

(** The goroutines of one [run]. *)
Definition streams (Strategy : string) (e : parallelExecution) : list (M unit) :=
  let nStreams := numberOfStreams e in
  if isLazy Strategy then executeLazily e nStreams else executeEagerly e nStreams.

(** *** The streams, the wait group and the result channel together

    [pending] holds, for every goroutine, the events it has still to
    perform; [wg] is the counter of the wait group; [received] is the
    slice [res] of [run]; [closed] tells whether [close(resChan)] has
    happened. *)
Record System : Type := {
  pending : list Trace;
  wg : Z;
  received : list SuiteResult;
  closed : bool
}.

(** [e.wg.Add(n)] followed by the [go] statements. *)
Definition spawn (n : Z) (workers : list (M unit)) : System :=
  {| pending := map trace workers; wg := n; received := []; closed := false |}.

(** What one event of a goroutine does to the shared state.  The channel
    is unbuffered and [run] sits in its receive loop, so a send hands
    its value to [res] at once. *)
Definition perform (ev : Event) (sys : System) (rest : list Trace) : System :=
  match ev with
  | EvSend r =>
      {| pending := rest; wg := wg sys; received := received sys ++ [r];
         closed := closed sys |}
  | EvWgDone =>
      {| pending := rest; wg := wg sys - 1; received := received sys;
         closed := closed sys |}
  | _ =>
      {| pending := rest; wg := wg sys; received := received sys;
         closed := closed sys |}
  end.

Inductive step : System -> System -> Prop :=
| step_event (sys : System) (i : nat) (ev : Event) (t : Trace) :
    closed sys = false ->
    pending sys !! i = Some (ev :: t) ->
    step sys (perform ev sys (<[i := t]> (pending sys)))
| step_close (sys : System) :
    closed sys = false ->
    wg sys = 0 ->
    step sys {| pending := pending sys; wg := wg sys; received := received sys;
                closed := true |}.

Inductive steps : System -> System -> Prop :=
| steps_refl (sys : System) : steps sys sys
| steps_cons (s1 s2 s3 : System) : step s1 s2 -> steps s2 s3 -> steps s1 s3.

(** The events a system has still to perform, the closing of the channel
    included. *)
Definition remaining (sys : System) : nat :=
  (length (concat (pending sys)) + (if closed sys then 0 else 1))%nat.

Definition sends (t : list Event) : list SuiteResult :=
  omap (fun ev => match ev with EvSend r => Some r | _ => None end) t.

Definition isSend (ev : Event) : bool :=
  match ev with EvSend _ => true | _ => false end.

Definition isDone (ev : Event) : bool :=
  match ev with EvWgDone => true | _ => false end.

Definition isExecute (ev : Event) : bool :=
  match ev with EvExecute _ _ _ => true | _ => false end.

Definition dones (t : list Event) : nat :=
  length (filter (fun ev => isDone ev = true) t).

(** [run] from the wait-group set-up to the end of its receive loop:
    [wg.Add(nStreams)], the goroutines of the selected strategy, nothing
    received yet. *)
Definition runSystem (Strategy : string) (e : parallelExecution) : System :=
  spawn (numberOfStreams e) (streams Strategy e).

(** [run]: the receive loop ends when the channel is closed, and what it
    has received by then is aggregated and returned.  [e] is the
    coordinator after [e.start()]; the events and plugin calls of
    [start] and [finish] do not touch the result. *)
Inductive run (Strategy ExecuteTags : string) (e : parallelExecution)
    (since : Config.Duration) : SuiteResult -> Prop :=
| run_closed (sys : System) :
    steps (runSystem Strategy e) sys ->
    closed sys = true ->
    run Strategy ExecuteTags e since
        (aggregateResults ExecuteTags e since (received sys)).

End Workers.

Arguments EvRunnerStart {Runner} stream.
Arguments EvLogErrorf {Runner} text.
Arguments EvLogDebug {Runner} format arg.
Arguments EvExecute {Runner} s runner stream.
Arguments EvKill {Runner} runner.
Arguments EvSend {Runner} res.
Arguments EvWgDone {Runner}.
Arguments ret {Runner A} a.
Arguments bind {Runner A B} m k.
Arguments emit {Runner} ev.
Arguments trace {Runner A} m.
Arguments defer {Runner A} d body.
Arguments Start {Runner} runner_Start stream.
Arguments execute {Runner} simpleExecute s runner stream.
Arguments Kill {Runner} runner.
Arguments send {Runner} res.
Arguments wgDone {Runner}.
Arguments startSpecsExecutionWithRunner {Runner} simpleExecute s runner stream.
Arguments startStream {Runner} runner_Start simpleExecute s stream.
Arguments startSpecsExecution {Runner} runner_Start simpleExecute s stream.
Arguments executeLazily {Runner} runner_Start simpleExecute e totalStreams.
Arguments executeEagerly {Runner} runner_Start simpleExecute DistributeSpecs e distributions.
Arguments streams {Runner} runner_Start simpleExecute DistributeSpecs Strategy e.
Arguments pending {Runner} s.
Arguments wg {Runner} s.
Arguments received {Runner} s.
Arguments closed {Runner} s.
Arguments spawn {Runner} n workers.
Arguments perform {Runner} ev sys rest.
Arguments step {Runner} _ _.
Arguments steps {Runner} _ _.
Arguments remaining {Runner} sys.
Arguments sends {Runner} t.
Arguments isSend {Runner} ev.
Arguments isDone {Runner} ev.
Arguments isExecute {Runner} ev.
Arguments dones {Runner} t.
Arguments runSystem {Runner} runner_Start simpleExecute DistributeSpecs Strategy e.
Arguments run {Runner} runner_Start simpleExecute DistributeSpecs Strategy ExecuteTags e since _.

End Execution.

(** ** The wording of the specification

    Definitions that follow the specification's sentences, to compare the
    code with. *)

Module Spec.

Import Execution.

(** Each name on its own line, in list order. *)
Fixpoint eachOnItsOwnLine (names : list string) : string :=
  match names with
  | [] => ""
  | name :: rest => name +:+ nl +:+ eachOnItsOwnLine rest
  end.

Definition upperOf (c : ascii) : ascii :=
  let n := N_of_ascii c in
  if ((97 <=? n) && (n <=? 122))%N then ascii_of_N (n - 32) else c.

(** [s] is [word] (a lower-case word) written in some letter case. *)
Fixpoint inAnyCase (word s : string) : Prop :=
  match word, s with
  | EmptyString, EmptyString => True
  | String w word', String c s' => (c = w \/ c = upperOf w) /\ inAnyCase word' s'
  | _, _ => False
  end.

(** The first non-nil entry of a list of optional values. *)
Definition firstNonNil {A} (l : list (option A)) : option A := head (omap id l).

(** The last non-nil entry of a list of optional values. *)
Definition lastNonNil {A} (l : list (option A)) : option A := last (omap id l).

(** The sum of a list of integers, in unbounded arithmetic. *)
Definition sumZ (l : list Z) : Z := foldr Z.add 0 l.

(** A suite result with its execution time left out. *)
Definition withoutExecutionTime (r : SuiteResult) : SuiteResult := setExecutionTime r 0.

(** "v milliseconds" as a duration. *)
Definition milliseconds (v : Z) : Config.Duration := v * 1000000.

Definition seconds (v : Z) : Config.Duration := v * 1000000000.

Section Reports.

Context {Runner : Type}.
Variable runner_Start : Z -> Runner + string.
Variable simpleExecute : SpecCollection -> Runner -> Z -> SuiteResult.

(** The result a stream reports when its runner fails to start with
    [err]: under the lazy strategy, and under the eager strategy for the
    bucket [s]. *)
Definition lazyStartFailure (err : string) : SuiteResult :=
  SuiteResult_withErrors [Errorf ("Failed to start runner. " +:+ err)].

Definition eagerStartFailure (s : SpecCollection) (err : string) : SuiteResult :=
  SuiteResult_withErrors
    [StreamExecErr {| specsSkipped := SpecNames s;
                      message := "Failed to start runner. " +:+ err |}].

(** What a stream reports, whatever the outcome of the start. *)
Definition lazyReport (s : SpecCollection) (stream : Z) : SuiteResult :=
  match runner_Start stream with
  | inl runner => simpleExecute s runner stream
  | inr err => lazyStartFailure err
  end.

Definition eagerReport (s : SpecCollection) (stream : Z) : SuiteResult :=
  match runner_Start stream with
  | inl runner => simpleExecute s runner stream
  | inr err => eagerStartFailure s err
  end.

(** A trace that sends once and then counts the wait group down, with
    neither a send nor a count-down before. *)
Definition reportsOnce (t : Trace Runner) : Prop :=
  exists pre r,
    t = pre ++ [EvSend r; EvWgDone] /\
    sends pre = [] /\ dones pre = 0%nat.

(** The goroutines this file starts. *)
Definition isStreamWorker (w : M Runner unit) : Prop :=
  exists s stream,
    w = startStream runner_Start simpleExecute s stream \/
    w = startSpecsExecution runner_Start simpleExecute s stream.

End Reports.

Section SystemInvariant.

Context {Runner : Type}.

(** A goroutine with events left has the count-down as its last one. *)
Definition endsWithDone (t : Trace Runner) : Prop :=
  t = [] \/ last t = Some EvWgDone.

(** What holds of the shared state all along a run whose streams report
    [reports] between them: the wait group counts the count-downs still
    to come, and every report is either received or still to be sent. *)
Record invariant (reports : list SuiteResult) (sys : System Runner) : Prop := {
  inv_wg : wg sys = Z.of_nat (dones (concat (pending sys)));
  inv_ends : Forall endsWithDone (pending sys);
  inv_reports : Permutation (received sys ++ sends (concat (pending sys))) reports;
  inv_closed : closed sys = true -> concat (pending sys) = []
}.

End SystemInvariant.

Section RunReports.

Context {Runner : Type}.
Variable runner_Start : Z -> Runner + string.
Variable simpleExecute : SpecCollection -> Runner -> Z -> SuiteResult.

(** The reports of the streams of an eager run over [buckets], and of a
    lazy run of [n] streams over the collection [s], in stream order. *)
Definition eagerReports (buckets : list SpecCollection) : list SuiteResult :=
  imap (fun i s => eagerReport runner_Start simpleExecute s (Z.of_nat i + 1)) buckets.

Definition lazyReports (s : SpecCollection) (n : nat) : list SuiteResult :=
  map (fun i => lazyReport runner_Start simpleExecute s (Z.of_nat i + 1)) (seq 0 n).

End RunReports.

(** The spellings [strconv.ParseBool] accepts for a value. *)
Definition spellings (b : bool) : list string :=
  if b then ["1"; "t"; "T"; "TRUE"; "true"; "True"]
  else ["0"; "f"; "F"; "FALSE"; "false"; "False"].

(** A string of ASCII white space only. *)
Definition blank (s : string) : Prop :=
  Forall (fun c => GoStrings.isAsciiSpace c = true) (list_ascii_of_string s).

(** A property that is not there reads as the empty string, and so do all
    properties when the file cannot be read. *)
Definition unreadable (props : Config.Properties) (key : string) : Prop :=
  match props with
  | inr _ => True
  | inl config => config !! key = None
  end.

Section TraceObservers.

Context {Runner : Type}.
Variable runner_Start : Z -> Runner + string.

(** The streams whose runner a trace starts, the runners it gets that way,
    the runners it kills, and the collections it executes with the stream
    that does so, each in trace order. *)
Definition startsOf (t : list (Event Runner)) : list Z :=
  omap (fun ev => match ev with EvRunnerStart stream => Some stream | _ => None end) t.

Definition startedRunners (t : list (Event Runner)) : list Runner :=
  omap (fun ev => match ev with
                  | EvRunnerStart stream =>
                      match runner_Start stream with
                      | inl runner => Some runner
                      | inr _ => None
                      end
                  | _ => None
                  end) t.

Definition killedRunners (t : list (Event Runner)) : list Runner :=
  omap (fun ev => match ev with EvKill runner => Some runner | _ => None end) t.

Definition executions (t : list (Event Runner)) : list (SpecCollection * Z) :=
  omap (fun ev => match ev with
                  | EvExecute s _ stream => Some (s, stream)
                  | _ => None
                  end) t.

End TraceObservers.

(** The numbers of the streams of a run of [n] streams. *)
Definition streamNumbers (n : nat) : list Z := map (fun i => Z.of_nat i + 1) (seq 0 n).

End Spec.

(** ** Sample data *)

Module Samples.

Import Execution.

Definition hookA : HookFailure := {| HookMessage := "before suite failed on stream 1" |}.
Definition hookB : HookFailure := {| HookMessage := "before suite failed on stream 2" |}.

Definition specResultA : SpecResult :=
  {| SpecFile := "a.spec"; SpecIsFailed := false; Skipped := false |}.
Definition specResultB : SpecResult :=
  {| SpecFile := "b.spec"; SpecIsFailed := true; Skipped := false |}.

Definition streamA : SuiteResult :=
  {| SpecResults := [specResultA]; PreSuite := Some hookA; PostSuite := None;
     IsFailed := false; SpecsFailedCount := 0; ExecutionTime := 12;
     UnhandledErrors := []; Tags := ""; Timestamp := 0; SpecsSkippedCount := 0 |}.

Definition streamB : SuiteResult :=
  {| SpecResults := [specResultB]; PreSuite := Some hookB; PostSuite := None;
     IsFailed := true; SpecsFailedCount := 1; ExecutionTime := 15;
     UnhandledErrors := []; Tags := ""; Timestamp := 0; SpecsSkippedCount := 0 |}.

Definition coordinator : parallelExecution :=
  {| specCollection := {| Specs := [ {| FileName := "a.spec" |}; {| FileName := "b.spec" |} ] |};
     numberOfExecutionStreams := 2; startTime := 0 |}.

Definition specA : Specification := {| FileName := "a.spec" |}.
Definition specB : Specification := {| FileName := "b.spec" |}.

(** A collaborator set-up in which the runner of stream 1 cannot be
    started and every other stream's runner can; a runner handle is the
    number of its stream. *)
Definition firstStreamFails (stream : Z) : Z + string :=
  if stream =? 1 then inr "no runner found" else inl stream.

(** An executor under which every spec of the stream passes. *)
Definition allPass (s : SpecCollection) (runner : Z) (stream : Z) : SuiteResult :=
  {| SpecResults :=
       map (fun sp => {| SpecFile := FileName sp; SpecIsFailed := false; Skipped := false |})
           (Specs s);
     PreSuite := None; PostSuite := None; IsFailed := false; SpecsFailedCount := 0;
     ExecutionTime := 5; UnhandledErrors := []; Tags := ""; Timestamp := 0;
     SpecsSkippedCount := 0 |}.

Definition bucketA : SpecCollection := {| Specs := [specA] |}.
Definition bucketB : SpecCollection := {| Specs := [specB] |}.

(** A distribution that puts every spec in a bucket of its own. *)
Definition onePerBucket (l : list Specification) (n : Z) : list SpecCollection :=
  map (fun sp => {| Specs := [sp] |}) l.

(** A root lookup that fails on the empty path, and an export that refuses
    an empty value. *)
Definition rootOf (path : string) : string + string :=
  if String.eqb path "" then inr "Failed to find project directory"
  else inl ("/work/" +:+ path).

Definition export (key value : string) (env : gmap string string)
  : gmap string string + string :=
  if String.eqb value "" then inr "empty value" else inl (<[ key := value ]> env).

(** A distribution that puts all specs in one bucket, whatever the number
    of buckets asked for. *)
Definition oneBucket (l : list Specification) (n : Z) : list SpecCollection :=
  [ {| Specs := l |} ].

(** A set-up in which no runner can be started. *)
Definition noRunner (stream : Z) : Z + string := inr "no runner found".

(** A coordinator with nothing to run. *)
Definition idle : parallelExecution :=
  {| specCollection := {| Specs := [] |}; numberOfExecutionStreams := 4; startTime := 0 |}.

End Samples.

(* ===================================================================== *)
(** * Theorems *)
(* ===================================================================== *)

(** ** Machine integers *)

Module GoIntFacts.

Import GoInt.

Lemma in_rangeb_spec (z : Z) : in_rangeb z = true <-> in_range z.
Proof.
  unfold in_rangeb, in_range.
  rewrite andb_true_iff, !Z.leb_le. reflexivity.
Qed.

Lemma wrap64_in_range (z : Z) : in_range z -> wrap64 z = z.
Proof.
  unfold in_range, min_int64, max_int64, wrap64. intros Hz.
  rewrite Z.mod_small by lia. lia.
Qed.

Lemma wrap64_range (z : Z) : in_range (wrap64 z).
Proof.
  unfold in_range, min_int64, max_int64, wrap64.
  pose proof (Z.mod_pos_bound (z + 2 ^ 63) (2 ^ 64) ltac:(lia)). lia.
Qed.

(** Wrapping an intermediate sum does not change the wrapped total. *)
Lemma wrap64_add_l (a b : Z) : wrap64 (wrap64 a + b) = wrap64 (a + b).
Proof.
  unfold wrap64. f_equal.
  replace ((a + 2 ^ 63) mod 2 ^ 64 - 2 ^ 63 + b + 2 ^ 63)
    with ((a + 2 ^ 63) mod 2 ^ 64 + b) by lia.
  rewrite Zplus_mod_idemp_l. f_equal. lia.
Qed.

Lemma add_comm (a b : Z) : add a b = add b a.
Proof. unfold add. f_equal. lia. Qed.

End GoIntFacts.

(** ** Strings *)

Module StringFacts.

Lemma append_cons (c : ascii) (s1 s2 : string) :
  String c s1 +:+ s2 = String c (s1 +:+ s2).
Proof. reflexivity. Qed.

Lemma append_nil_l (s : string) : "" +:+ s = s.
Proof. reflexivity. Qed.

Lemma append_nil_r (s : string) : s +:+ "" = s.
Proof.
  induction s as [|c s IH]; [reflexivity|].
  rewrite append_cons, IH. reflexivity.
Qed.

Lemma append_assoc (s1 s2 s3 : string) : (s1 +:+ s2) +:+ s3 = s1 +:+ (s2 +:+ s3).
Proof.
  induction s1 as [|c s1 IH]; [reflexivity|].
  rewrite !append_cons, IH. reflexivity.
Qed.

End StringFacts.

(** ** Stream-count resolution *)

Module StreamCount.

Import Execution.

Lemma Size_nonneg (s : SpecCollection) : 0 <= Size s.
Proof. unfold Size. lia. Qed.

(** C1, as the claim words it, fails: a requested count of zero gives zero
    streams for a collection of one spec. *)
Lemma numberOfStreams_zero_request :
  let e := {| specCollection := {| Specs := [ {| FileName := "a.spec" |} ] |};
              numberOfExecutionStreams := 0; startTime := 0 |} in
  0 < Size (specCollection e) /\ numberOfStreams e = 0.
Proof. split; reflexivity. Qed.

(** C1 (amended): [numberOfStreams] returns the minimum of the requested
    count and the number of specs; the result is not zero when there are
    specs and the requested count is not zero; for a requested count of at
    least one it is zero exactly when there are no specs. *)
Theorem numberOfStreams_min (e : parallelExecution) :
  let R := numberOfExecutionStreams e in
  let S := Size (specCollection e) in
  numberOfStreams e = Z.min R S /\
  (R <> 0 -> 0 < S -> numberOfStreams e <> 0) /\
  (1 <= R -> (numberOfStreams e = 0 <-> S = 0)).
Proof.
  intros R S. pose proof (Size_nonneg (specCollection e)) as HS.
  unfold numberOfStreams. fold R S.
  destruct (Z.gtb_spec R S) as [Hgt|Hle]; repeat split; try lia.
Qed.

Lemma numberOfStreams_min_witness :
  let e := {| specCollection :=
                {| Specs := map (fun n => {| FileName := n |})
                                ["1"; "2"; "3"; "4"; "5"; "6"; "7"] |};
              numberOfExecutionStreams := 10; startTime := 0 |} in
  numberOfStreams e = 7 /\ numberOfStreams e <> 0 /\ (numberOfStreams e = 0 <-> Size (specCollection e) = 0).
Proof.
  intros e.
  destruct (numberOfStreams_min e) as (Hmin & Hnz & Hiff).
  split; [exact Hmin|].
  split; [apply Hnz; [discriminate | reflexivity] | apply Hiff; discriminate].
Defined.

End StreamCount.

(** ** The text of a stream execution error *)

Module ErrorText.

Import Execution Spec StringFacts.

(** The loop [specNames += fmt.Sprintf("%s\n", spec)] started from any
    prefix appends the names, one per line. *)
Lemma specNames_loop (names : list string) (acc : string) :
  fold_left (fun specNames spec => specNames +:+ Sprintf_line spec) names acc
  = acc +:+ eachOnItsOwnLine names.
Proof.
  revert acc. induction names as [|name rest IH]; intros acc.
  - simpl. now rewrite append_nil_r.
  - cbn [fold_left eachOnItsOwnLine]. rewrite IH.
    unfold Sprintf_line. now rewrite !append_assoc.
Qed.

(** C9: the text of a [streamExecError] is the fixed first line, then each
    skipped spec name on its own line in list order, then ["Reason : "],
    the message and a full stop. *)
Theorem Error_text (names : list string) (m : string) :
  Error {| specsSkipped := names; message := m |}
  = "The following specifications could not be executed:" +:+ nl
      +:+ eachOnItsOwnLine names +:+ "Reason : " +:+ m +:+ ".".
Proof.
  unfold Error. cbn [specsSkipped message].
  rewrite specNames_loop, append_nil_l. reflexivity.
Qed.

Example Error_two_specs :
  Error {| specsSkipped := ["a.spec"; "b.spec"]; message := "boom" |}
  = "The following specifications could not be executed:" +:+ nl
      +:+ "a.spec" +:+ nl +:+ "b.spec" +:+ nl +:+ "Reason : boom.".
Proof. reflexivity. Qed.

End ErrorText.

(** ** Strategy selection *)

Module StrategyFacts.

Import Execution Spec GoStrings.

Ltac each_byte c :=
  destruct c as [[] [] [] [] [] [] [] []]; vm_compute;
  (split; [intros H; first [discriminate H | auto]
          | intros [H|H]; first [discriminate H | reflexivity]]).

Lemma lowerByte_l (c : ascii) :
  lowerByte c = "l"%char <-> (c = "l"%char \/ c = upperOf "l"%char).
Proof. each_byte c. Qed.

Lemma lowerByte_a (c : ascii) :
  lowerByte c = "a"%char <-> (c = "a"%char \/ c = upperOf "a"%char).
Proof. each_byte c. Qed.

Lemma lowerByte_z (c : ascii) :
  lowerByte c = "z"%char <-> (c = "z"%char \/ c = upperOf "z"%char).
Proof. each_byte c. Qed.

Lemma lowerByte_y (c : ascii) :
  lowerByte c = "y"%char <-> (c = "y"%char \/ c = upperOf "y"%char).
Proof. each_byte c. Qed.

Lemma ToLower_lazy (s : string) : ToLower s = Lazy <-> inAnyCase "lazy" s.
Proof.
  unfold Lazy.
  destruct s as [|c1 [|c2 [|c3 [|c4 [|c5 s]]]]]; cbn [ToLower inAnyCase];
    try (split; [intros H; discriminate H | tauto]).
  rewrite <- lowerByte_l, <- lowerByte_a, <- lowerByte_z, <- lowerByte_y.
  split.
  - intros H. injection H as -> -> -> ->. tauto.
  - intros (-> & -> & -> & -> & _). reflexivity.
Qed.

Lemma isLazy_iff (Strategy : string) : isLazy Strategy = true <-> inAnyCase "lazy" Strategy.
Proof. unfold isLazy. rewrite String.eqb_eq. apply ToLower_lazy. Qed.

(** C6: strategy resolution is a total choice between the two strategies,
    with no error path: for every value of the setting [run] starts the
    goroutines of one of them.  A setting that is ["lazy"] in any letter
    case makes [run] start the lazy streams, and every other string, the
    empty one and unrecognised ones such as ["bogus"] included, makes it
    start the eager streams. *)
Theorem strategy_resolution {Runner : Type}
    (runner_Start : Z -> Runner + string)
    (simpleExecute : SpecCollection -> Runner -> Z -> SuiteResult)
    (DistributeSpecs : list Specification -> Z -> list SpecCollection)
    (Strategy : string) (e : parallelExecution) :
  let lazily :=
    spawn (numberOfStreams e)
      (executeLazily runner_Start simpleExecute e (numberOfStreams e)) in
  let eagerly :=
    spawn (numberOfStreams e)
      (executeEagerly runner_Start simpleExecute DistributeSpecs e (numberOfStreams e)) in
  (inAnyCase "lazy" Strategy ->
     runSystem runner_Start simpleExecute DistributeSpecs Strategy e = lazily) /\
  (~ inAnyCase "lazy" Strategy ->
     runSystem runner_Start simpleExecute DistributeSpecs Strategy e = eagerly) /\
  runSystem runner_Start simpleExecute DistributeSpecs "" e = eagerly /\
  runSystem runner_Start simpleExecute DistributeSpecs "bogus" e = eagerly.
Proof.
  cbv zeta. unfold runSystem, streams.
  pose proof (isLazy_iff Strategy) as Hiff.
  destruct (isLazy Strategy).
  - repeat split; try reflexivity. intros Hn. exfalso. apply Hn, Hiff. reflexivity.
  - repeat split; try reflexivity. intros Hy. apply Hiff in Hy. discriminate Hy.
Qed.

Lemma strategy_resolution_witness :
  pending (runSystem Samples.firstStreamFails Samples.allPass Samples.onePerBucket
             "LaZy" Samples.coordinator)
    = [trace (startStream Samples.firstStreamFails Samples.allPass
                (specCollection Samples.coordinator) 1);
       trace (startStream Samples.firstStreamFails Samples.allPass
                (specCollection Samples.coordinator) 2)] /\
  pending (runSystem Samples.firstStreamFails Samples.allPass Samples.onePerBucket
             "eager" Samples.coordinator)
    = [trace (startSpecsExecution Samples.firstStreamFails Samples.allPass
                Samples.bucketA 1);
       trace (startSpecsExecution Samples.firstStreamFails Samples.allPass
                Samples.bucketB 2)].
Proof.
  split.
  - rewrite (proj1 (strategy_resolution Samples.firstStreamFails Samples.allPass
                      Samples.onePerBucket "LaZy" Samples.coordinator)).
    + reflexivity.
    + vm_compute. tauto.
  - rewrite (proj1 (proj2 (strategy_resolution Samples.firstStreamFails Samples.allPass
                             Samples.onePerBucket "eager" Samples.coordinator))).
    + reflexivity.
    + vm_compute. intros [[H|H] _]; discriminate H.
Defined.

End StrategyFacts.

(** ** Timeouts read from the configuration *)

Module ConfigFacts.

Import Config Spec GoInt GoIntFacts.

Example Atoi_plain : Strconv.Atoi "25000" = Some 25000.
Proof. reflexivity. Qed.

Example Atoi_signs : Strconv.Atoi "-30" = Some (-30) /\ Strconv.Atoi "+30" = Some 30.
Proof. split; reflexivity. Qed.

Example Atoi_rejects :
  Strconv.Atoi "" = None /\ Strconv.Atoi "-" = None /\ Strconv.Atoi "12s" = None /\
  Strconv.Atoi " 12" = None /\ Strconv.Atoi "1_000" = None /\ Strconv.Atoi "0x10" = None.
Proof. repeat split; reflexivity. Qed.

Example Atoi_range :
  Strconv.Atoi "9223372036854775807" = Some max_int64 /\
  Strconv.Atoi "9223372036854775808" = None /\
  Strconv.Atoi "-9223372036854775808" = Some min_int64 /\
  Strconv.Atoi "-9223372036854775809" = None.
Proof. repeat split; reflexivity. Qed.

Lemma Atoi_in_range (s : string) (v : Z) : Strconv.Atoi s = Some v -> in_range v.
Proof.
  unfold Strconv.Atoi. destruct (Strconv.parseSigned s) as [w|]; [|discriminate].
  destruct (in_rangeb w) eqn:Hr; [|discriminate].
  intros [= <-]. now apply in_rangeb_spec.
Qed.

Lemma default_runner_timeout : defaultRunnerConnectionTimeout = seconds 25.
Proof. reflexivity. Qed.

Lemma getFromConfig_missing (m : gmap string string) (name : string) :
  m !! name = None -> value (getFromConfig (inl m) name) = "".
Proof. intros H. unfold getFromConfig, value. cbn. now rewrite H. Qed.

Lemma RunnerConnectionTimeout_value (props : Properties) :
  value (RunnerConnectionTimeout props)
  = value (convertToTime (value (getFromConfig props runnerConnectionTimeout))
             defaultRunnerConnectionTimeout runnerConnectionTimeout).
Proof.
  unfold RunnerConnectionTimeout, value.
  destruct (getFromConfig props runnerConnectionTimeout) as [w1 s]. cbn [snd].
  destruct (convertToTime s _ _) as [w2 d]. reflexivity.
Qed.

Lemma convertToTime_value (s : string) (defaultValue : Duration) (name : string) :
  (Strconv.Atoi s = None ->
     value (convertToTime s defaultValue name) = defaultValue) /\
  (forall v, Strconv.Atoi s = Some v ->
     value (convertToTime s defaultValue name) = wrap64 (milliseconds v)) /\
  (forall v, Strconv.Atoi s = Some v -> in_range (milliseconds v) ->
     value (convertToTime s defaultValue name) = milliseconds v).
Proof.
  assert (Hv : forall v, Strconv.Atoi s = Some v ->
            value (convertToTime s defaultValue name) = wrap64 (milliseconds v)).
  { intros v Hs. unfold convertToTime. rewrite Hs. unfold value, mul, milliseconds, Millisecond.
    cbn [snd]. f_equal. lia. }
  split; [|split; [exact Hv|]].
  - intros Hs. unfold convertToTime. now rewrite Hs.
  - intros v Hs Hr. rewrite (Hv v Hs). now apply wrap64_in_range.
Qed.

(** C10, as the claim words it, fails: the largest [int] parses, and the
    duration returned for it is minus one millisecond. *)
Lemma convertToTime_overflow :
  let s := "9223372036854775807" in
  Strconv.Atoi s = Some 9223372036854775807 /\
  value (convertToTime s defaultRunnerConnectionTimeout runnerConnectionTimeout)
    = milliseconds (-1) /\
  value (convertToTime s defaultRunnerConnectionTimeout runnerConnectionTimeout)
    <> milliseconds 9223372036854775807.
Proof. repeat split. intros H. discriminate H. Qed.

(** C10 (amended): when the value does not parse as a decimal integer that
    fits an [int], [convertToTime] returns the supplied default, so
    [RunnerConnectionTimeout] is 25 seconds when the properties cannot be
    read or the property is missing or malformed; when the value parses as
    [v], it returns [v] times one million nanoseconds in 64-bit arithmetic,
    which is exactly [v] milliseconds whenever that product fits in 64
    bits. *)
Theorem convertToTime_spec (s : string) (defaultValue : Duration) (name : string) :
  (Strconv.Atoi s = None ->
     value (convertToTime s defaultValue name) = defaultValue) /\
  (forall v, Strconv.Atoi s = Some v ->
     value (convertToTime s defaultValue name) = wrap64 (milliseconds v)) /\
  (forall v, Strconv.Atoi s = Some v -> in_range (milliseconds v) ->
     value (convertToTime s defaultValue name) = milliseconds v) /\
  (forall props,
     Strconv.Atoi (value (getFromConfig props runnerConnectionTimeout)) = None ->
     value (RunnerConnectionTimeout props) = seconds 25).
Proof.
  assert (Hv : forall v, Strconv.Atoi s = Some v ->
            value (convertToTime s defaultValue name) = wrap64 (milliseconds v)).
  { intros v Hs. unfold convertToTime. rewrite Hs. unfold value, mul, milliseconds, Millisecond.
    cbn [snd]. f_equal. lia. }
  split; [|split; [exact Hv|split]].
  - intros Hs. unfold convertToTime. now rewrite Hs.
  - intros v Hs Hr. rewrite (Hv v Hs). now apply wrap64_in_range.
  - intros props Hs. rewrite RunnerConnectionTimeout_value.
    unfold convertToTime. now rewrite Hs.
Qed.

Lemma convertToTime_spec_witness :
  value (convertToTime "abc" (seconds 25) runnerConnectionTimeout) = seconds 25 /\
  value (convertToTime "3000" (seconds 25) runnerConnectionTimeout) = milliseconds 3000 /\
  value (RunnerConnectionTimeout (inl ∅)) = seconds 25 /\
  value (RunnerConnectionTimeout (inr "gauge.properties not found")) = seconds 25 /\
  value (RunnerConnectionTimeout (inl {[ runnerConnectionTimeout := "soon" ]})) = seconds 25.
Proof.
  split; [|split; [|split; [|split]]].
  - refine (proj1 (convertToTime_spec "abc" _ _) _). reflexivity.
  - refine (proj1 (proj2 (proj2 (convertToTime_spec "3000" _ _))) 3000 _ _).
    + reflexivity.
    + unfold in_range. vm_compute. split; intros H; discriminate H.
  - refine (proj2 (proj2 (proj2 (convertToTime_spec "" 0 ""))) (inl ∅) _). reflexivity.
  - refine (proj2 (proj2 (proj2 (convertToTime_spec "" 0 "")))
              (inr "gauge.properties not found") _).
    reflexivity.
  - refine (proj2 (proj2 (proj2 (convertToTime_spec "" 0 "")))
              (inl {[ runnerConnectionTimeout := "soon" ]}) _).
    vm_compute. reflexivity.
Defined.

End ConfigFacts.

(** ** Stream workers *)

Module StreamFacts.

Import Execution Spec.

Section Worker.

Context {Runner : Type}.
Variable runner_Start : Z -> Runner + string.
Variable simpleExecute : SpecCollection -> Runner -> Z -> SuiteResult.

Local Abbreviation startStream := (startStream runner_Start simpleExecute).
Local Abbreviation startSpecsExecution := (startSpecsExecution runner_Start simpleExecute).
Local Abbreviation startSpecsExecutionWithRunner :=
  (startSpecsExecutionWithRunner simpleExecute).
Local Abbreviation lazyReport := (lazyReport runner_Start simpleExecute).
Local Abbreviation eagerReport := (eagerReport runner_Start simpleExecute).

Lemma withRunner_trace (s : SpecCollection) (runner : Runner) (stream : Z) :
  trace (startSpecsExecutionWithRunner s runner stream)
  = [EvExecute s runner stream; EvKill runner; EvSend (simpleExecute s runner stream)].
Proof. reflexivity. Qed.

Lemma startStream_started (s : SpecCollection) (stream : Z) (runner : Runner) :
  runner_Start stream = inl runner ->
  trace (startStream s stream)
  = [EvRunnerStart stream; EvExecute s runner stream; EvKill runner;
     EvSend (simpleExecute s runner stream); EvWgDone].
Proof. intros H. unfold Execution.startStream, defer, bind, Start. cbn. now rewrite H. Qed.

Lemma startSpecsExecution_started (s : SpecCollection) (stream : Z) (runner : Runner) :
  runner_Start stream = inl runner ->
  trace (startSpecsExecution s stream)
  = [EvRunnerStart stream; EvExecute s runner stream; EvKill runner;
     EvSend (simpleExecute s runner stream); EvWgDone].
Proof.
  intros H. unfold Execution.startSpecsExecution, defer, bind, Start. cbn. now rewrite H.
Qed.

Lemma startStream_failed (s : SpecCollection) (stream : Z) (err : string) :
  runner_Start stream = inr err ->
  trace (startStream s stream)
  = [EvRunnerStart stream; EvLogErrorf ("Failed to start runner. " +:+ err);
     EvSend (lazyStartFailure err); EvWgDone].
Proof. intros H. unfold Execution.startStream, defer, bind, Start. cbn. now rewrite H. Qed.

Lemma startSpecsExecution_failed (s : SpecCollection) (stream : Z) (err : string) :
  runner_Start stream = inr err ->
  trace (startSpecsExecution s stream)
  = [EvRunnerStart stream; EvLogErrorf ("Failed to start runner. " +:+ err);
     EvLogDebug "Skipping %d specifications" (Size s);
     EvSend (eagerStartFailure s err); EvWgDone].
Proof.
  intros H. unfold Execution.startSpecsExecution, defer, bind, Start. cbn. now rewrite H.
Qed.

Lemma startStream_sends (s : SpecCollection) (stream : Z) :
  sends (trace (startStream s stream)) = [lazyReport s stream].
Proof.
  unfold Spec.lazyReport. destruct (runner_Start stream) as [runner|err] eqn:H.
  - now rewrite (startStream_started s stream runner H).
  - now rewrite (startStream_failed s stream err H).
Qed.

Lemma startSpecsExecution_sends (s : SpecCollection) (stream : Z) :
  sends (trace (startSpecsExecution s stream)) = [eagerReport s stream].
Proof.
  unfold Spec.eagerReport. destruct (runner_Start stream) as [runner|err] eqn:H.
  - now rewrite (startSpecsExecution_started s stream runner H).
  - now rewrite (startSpecsExecution_failed s stream err H).
Qed.

Lemma startStream_reportsOnce (s : SpecCollection) (stream : Z) :
  reportsOnce (trace (startStream s stream)).
Proof.
  destruct (runner_Start stream) as [runner|err] eqn:H.
  - rewrite (startStream_started s stream runner H).
    now eexists [EvRunnerStart stream; EvExecute s runner stream; EvKill runner], _.
  - rewrite (startStream_failed s stream err H).
    now eexists [EvRunnerStart stream; EvLogErrorf ("Failed to start runner. " +:+ err)], _.
Qed.

Lemma startSpecsExecution_reportsOnce (s : SpecCollection) (stream : Z) :
  reportsOnce (trace (startSpecsExecution s stream)).
Proof.
  destruct (runner_Start stream) as [runner|err] eqn:H.
  - rewrite (startSpecsExecution_started s stream runner H).
    now eexists [EvRunnerStart stream; EvExecute s runner stream; EvKill runner], _.
  - rewrite (startSpecsExecution_failed s stream err H).
    now eexists [EvRunnerStart stream; EvLogErrorf ("Failed to start runner. " +:+ err);
                EvLogDebug "Skipping %d specifications" (Size s)], _.
Qed.

End Worker.

End StreamFacts.

(** ** The streams, the wait group and the result channel together *)

Module SystemFacts.

Import Execution Spec StreamFacts.

Section System.

Context {Runner : Type}.

Implicit Types (t pre : Trace Runner) (sys : System Runner) (ev : Event Runner).

Lemma sends_app t1 t2 : sends (t1 ++ t2) = sends t1 ++ sends t2.
Proof. unfold sends. apply omap_app. Qed.

Lemma dones_cons ev t :
  dones (ev :: t) = ((if isDone ev then 1 else 0) + dones t)%nat.
Proof.
  unfold dones. cbn.
  destruct (decide (isDone ev = true)) as [H|H].
  - rewrite H. reflexivity.
  - destruct (isDone ev); [congruence | reflexivity].
Qed.

Lemma dones_app t1 t2 : dones (t1 ++ t2) = (dones t1 + dones t2)%nat.
Proof. unfold dones. now rewrite filter_app, length_app. Qed.

Lemma endsWithDone_dones t : endsWithDone t -> dones t = 0%nat -> t = [].
Proof.
  intros [->|Hlast] Hd; [reflexivity|].
  apply last_Some in Hlast as [l ->].
  rewrite dones_app, dones_cons in Hd. cbn in Hd. lia.
Qed.

Lemma endsWithDone_tail ev t : endsWithDone (ev :: t) -> endsWithDone t.
Proof.
  intros [H|H]; [discriminate H|].
  destruct t as [|ev' t]; [now left | right].
  now rewrite last_cons_cons in H.
Qed.

Lemma reportsOnce_ends t : reportsOnce t -> endsWithDone t.
Proof.
  intros (pre & r & -> & _). right.
  change [EvSend r; EvWgDone] with ([EvSend r] ++ [EvWgDone (Runner:=Runner)]).
  rewrite app_assoc. apply last_snoc.
Qed.

Lemma reportsOnce_dones t : reportsOnce t -> dones t = 1%nat.
Proof. intros (pre & r & -> & _ & Hd). rewrite dones_app, Hd. reflexivity. Qed.

Lemma reportsOnce_sends t : reportsOnce t -> length (sends t) = 1%nat.
Proof. intros (pre & r & -> & Hs & _). rewrite sends_app, Hs. reflexivity. Qed.

(** The goroutine that moves is somewhere in the middle of the list. *)
Lemma pending_split (l : list (Trace Runner)) (i : nat) ev t :
  l !! i = Some (ev :: t) ->
  exists l1 l2, l = l1 ++ (ev :: t) :: l2 /\ <[i := t]> l = l1 ++ t :: l2.
Proof.
  intros H. apply list_elem_of_split_length in H as (l1 & l2 & -> & ->).
  exists l1, l2. split; [reflexivity|].
  rewrite (insert_app_r_alt l1 (_ :: l2) (length l1)) by apply Nat.le_refl.
  now rewrite Nat.sub_diag.
Qed.

Lemma all_empty_or_ready (l : list (Trace Runner)) :
  concat l = [] \/ exists i ev t, l !! i = Some (ev :: t).
Proof.
  induction l as [|[|ev t] l IH].
  - now left.
  - destruct IH as [IH|(i & ev & t & IH)]; [now left | right].
    now exists (S i), ev, t.
  - right. now exists 0%nat, ev, t.
Qed.

Lemma sends_cons ev t : sends (ev :: t) = sends [ev] ++ sends t.
Proof. apply (sends_app [ev] t). Qed.

Lemma perform_pending ev sys rest : pending (perform ev sys rest) = rest.
Proof. now destruct ev. Qed.

Lemma perform_closed ev sys rest : closed (perform ev sys rest) = closed sys.
Proof. now destruct ev. Qed.

Lemma perform_wg ev sys rest :
  wg (perform ev sys rest) = wg sys - (if isDone ev then 1 else 0).
Proof. destruct ev; cbn; lia. Qed.

Lemma perform_received ev sys rest :
  received (perform ev sys rest) = received sys ++ sends [ev].
Proof. destruct ev; cbn; now rewrite ?app_nil_r. Qed.

Lemma step_invariant reports sys sys' :
  invariant reports sys -> step sys sys' -> invariant reports sys'.
Proof.
  intros [Hwg Hends Hrep Hcl] Hstep.
  destruct Hstep as [sys i ev t Hopen Hi | sys Hopen Hzero].
  - destruct (pending_split _ _ _ _ Hi) as (l1 & l2 & Hl & Hins).
    rewrite Hins. rewrite Hl in Hwg, Hends, Hrep.
    apply Forall_app in Hends as [Hends1 Hends2].
    apply Forall_cons in Hends2 as [Hev Hends2].
    rewrite concat_app, concat_cons in Hwg, Hrep.
    rewrite !dones_app, dones_cons in Hwg.
    rewrite !sends_app, sends_cons in Hrep.
    split; rewrite ?perform_pending, ?perform_closed, ?perform_wg, ?perform_received.
    + rewrite concat_app, concat_cons, !dones_app. destruct (isDone ev); lia.
    + apply Forall_app. split; [exact Hends1|].
      apply Forall_cons. split; [|exact Hends2]. now apply endsWithDone_tail in Hev.
    + rewrite concat_app, concat_cons, !sends_app. rewrite <- Hrep.
      rewrite <- !app_assoc. apply Permutation_app_head.
      rewrite !app_assoc. apply Permutation_app_tail, Permutation_app_tail.
      apply Permutation_app_comm.
    + intros Hc. congruence.
  - assert (Hnil : concat (pending sys) = []).
    { assert (Hd : dones (concat (pending sys)) = 0%nat) by lia.
      clear - Hends Hd. induction (pending sys) as [|t l IH]; [reflexivity|].
      apply Forall_cons in Hends as [Ht Hl].
      rewrite concat_cons, dones_app in Hd.
      rewrite (endsWithDone_dones t Ht) by lia. apply IH; [exact Hl | lia]. }
    split; cbn [pending wg received closed]; auto.
Qed.

Lemma steps_invariant reports sys sys' :
  invariant reports sys -> steps sys sys' -> invariant reports sys'.
Proof.
  intros Hinv Hsteps. induction Hsteps as [|s1 s2 s3 Hstep _ IH]; [exact Hinv|].
  apply IH. eapply step_invariant; eassumption.
Qed.

(** Every step uses up one of the events still to be performed. *)
Lemma step_remaining sys sys' : step sys sys' -> S (remaining sys') = remaining sys.
Proof.
  intros [sys0 i ev t Hopen Hi | sys0 Hopen Hzero]; unfold remaining.
  - destruct (pending_split _ _ _ _ Hi) as (l1 & l2 & Hl & Hins).
    assert (Hp : pending (perform ev sys0 (<[i:=t]> (pending sys0))) = l1 ++ t :: l2
                 /\ closed (perform ev sys0 (<[i:=t]> (pending sys0))) = false).
    { rewrite Hins. destruct ev; cbn; auto. }
    destruct Hp as [-> ->]. rewrite Hl, Hopen.
    rewrite !concat_app, !concat_cons, !length_app. cbn [length]. lia.
  - cbn [pending closed]. rewrite Hopen. lia.
Qed.

(** While the channel is open, something can move: a goroutine has an
    event left, or the wait group has reached zero and the channel can
    be closed. *)
Lemma progress reports sys :
  invariant reports sys -> closed sys = false -> exists sys', step sys sys'.
Proof.
  intros [Hwg _ _ _] Hopen.
  destruct (all_empty_or_ready (pending sys)) as [Hnil|(i & ev & t & Hi)].
  - eexists. apply step_close; [exact Hopen|]. rewrite Hwg, Hnil. reflexivity.
  - eexists. eapply step_event; eassumption.
Qed.

(** The channel is closed after finitely many steps. *)
Lemma closes reports sys :
  invariant reports sys -> exists sys', steps sys sys' /\ closed sys' = true.
Proof.
  remember (remaining sys) as n eqn:Hn. revert sys Hn.
  induction n as [n IH] using lt_wf_ind. intros sys Hn Hinv.
  destruct (closed sys) eqn:Hc.
  - exists sys. split; [constructor | exact Hc].
  - destruct (progress reports sys Hinv Hc) as [sys1 Hstep].
    pose proof (step_remaining _ _ Hstep) as Hrem.
    destruct (IH (remaining sys1) ltac:(lia) sys1 eq_refl
                 (step_invariant _ _ _ Hinv Hstep)) as (sys' & Hsteps & Hc').
    exists sys'. split; [econstructor; eassumption | exact Hc'].
Qed.

Lemma closed_final sys sys' : closed sys = true -> ~ step sys sys'.
Proof. intros Hc Hstep. destruct Hstep; congruence. Qed.

(** When the channel is closed, the receive loop has every report. *)
Lemma closed_received reports sys :
  invariant reports sys -> closed sys = true -> Permutation (received sys) reports.
Proof.
  intros [_ _ Hrep Hcl] Hc. rewrite (Hcl Hc) in Hrep.
  cbn in Hrep. now rewrite app_nil_r in Hrep.
Qed.

(** [wg.Add] with the number of goroutines started establishes the
    invariant. *)
Lemma spawn_invariant (workers : list (M Runner unit)) :
  Forall (fun w => reportsOnce (trace w)) workers ->
  invariant (sends (concat (map trace workers)))
            (spawn (Z.of_nat (length workers)) workers).
Proof.
  intros Hw. split; cbn [spawn pending wg received closed].
  - f_equal. induction Hw as [|w l Hr _ IH]; [reflexivity|].
    cbn [map concat length]. rewrite dones_app, (reportsOnce_dones _ Hr). lia.
  - apply Forall_fmap. eapply Forall_impl; [exact Hw|].
    intros w Hr. now apply reportsOnce_ends.
  - reflexivity.
  - discriminate.
Qed.

End System.

End SystemFacts.

(** ** Aggregation *)

Module AggregationFacts.

Import Execution Spec GoInt GoIntFacts.

Lemma last_cons_match {A} (x : A) (l : list A) :
  last (x :: l) = match last l with Some y => Some y | None => Some x end.
Proof.
  destruct l as [|y l]; [reflexivity|].
  rewrite last_cons_cons. destruct (last (y :: l)) eqn:H; [reflexivity|].
  now apply last_None in H.
Qed.

Lemma lastNonNil_cons {A} (o : option A) (l : list (option A)) :
  lastNonNil (o :: l)
  = match lastNonNil l with Some y => Some y | None => o end.
Proof.
  unfold lastNonNil. destruct o as [x|]; simpl.
  - apply last_cons_match.
  - destruct (last _); reflexivity.
Qed.

(** The loop, field by field, from any starting aggregate. *)

Lemma fold_SpecsFailedCount (rs : list SuiteResult) (r : SuiteResult) :
  in_range (SpecsFailedCount r) ->
  SpecsFailedCount (fold_left accumulate rs r)
  = wrap64 (SpecsFailedCount r + sumZ (map SpecsFailedCount rs)).
Proof.
  revert r. induction rs as [|a rs IH]; intros r Hr; cbn [fold_left map sumZ foldr].
  - rewrite Z.add_0_r. symmetry. now apply wrap64_in_range.
  - rewrite IH by apply wrap64_range.
    cbn [accumulate SpecsFailedCount]. unfold add. rewrite wrap64_add_l.
    f_equal. unfold sumZ. lia.
Qed.

Lemma fold_SpecResults (rs : list SuiteResult) (r : SuiteResult) :
  SpecResults (fold_left accumulate rs r) = SpecResults r ++ concat (map SpecResults rs).
Proof.
  revert r. induction rs as [|a rs IH]; intros r; cbn [fold_left map concat].
  - now rewrite app_nil_r.
  - rewrite IH. cbn [accumulate SpecResults]. now rewrite app_assoc.
Qed.

Lemma fold_IsFailed (rs : list SuiteResult) (r : SuiteResult) :
  IsFailed (fold_left accumulate rs r) = IsFailed r || existsb IsFailed rs.
Proof.
  revert r. induction rs as [|a rs IH]; intros r; cbn [fold_left existsb].
  - now rewrite orb_false_r.
  - rewrite IH. cbn [accumulate IsFailed].
    destruct (IsFailed a), (IsFailed r); reflexivity.
Qed.

Lemma fold_UnhandledErrors (rs : list SuiteResult) (r : SuiteResult) :
  UnhandledErrors (fold_left accumulate rs r)
  = UnhandledErrors r ++ concat (map UnhandledErrors rs).
Proof.
  revert r. induction rs as [|a rs IH]; intros r; cbn [fold_left map concat].
  - now rewrite app_nil_r.
  - rewrite IH. cbn [accumulate UnhandledErrors].
    destruct (UnhandledErrors a) as [|err errs].
    + reflexivity.
    + now rewrite app_assoc.
Qed.

Lemma fold_PreSuite (rs : list SuiteResult) (r : SuiteResult) :
  PreSuite (fold_left accumulate rs r)
  = match lastNonNil (map PreSuite rs) with Some h => Some h | None => PreSuite r end.
Proof.
  revert r. induction rs as [|a rs IH]; intros r; cbn [fold_left map].
  - reflexivity.
  - rewrite IH, lastNonNil_cons. cbn [accumulate PreSuite].
    destruct (lastNonNil (map PreSuite rs)); [reflexivity|].
    now destruct (PreSuite a).
Qed.

Lemma fold_PostSuite (rs : list SuiteResult) (r : SuiteResult) :
  PostSuite (fold_left accumulate rs r)
  = match lastNonNil (map PostSuite rs) with Some h => Some h | None => PostSuite r end.
Proof.
  revert r. induction rs as [|a rs IH]; intros r; cbn [fold_left map].
  - reflexivity.
  - rewrite IH, lastNonNil_cons. cbn [accumulate PostSuite].
    destruct (lastNonNil (map PostSuite rs)); [reflexivity|].
    now destruct (PostSuite a).
Qed.

Lemma fold_stamp (rs : list SuiteResult) (r : SuiteResult) :
  Tags (fold_left accumulate rs r) = Tags r /\
  Timestamp (fold_left accumulate rs r) = Timestamp r /\
  ExecutionTime (fold_left accumulate rs r) = ExecutionTime r.
Proof.
  revert r. induction rs as [|a rs IH]; intros r; cbn [fold_left]; [auto|].
  destruct (IH (accumulate r a)) as (-> & -> & ->). auto.
Qed.

(** The fields of the aggregate. *)

Section Fields.

Variables (ExecuteTags : string) (e : parallelExecution) (since : Config.Duration).
Variable rs : list SuiteResult.

Local Abbreviation agg := (aggregateResults ExecuteTags e since rs).

Lemma agg_SpecsFailedCount : SpecsFailedCount agg = wrap64 (sumZ (map SpecsFailedCount rs)).
Proof.
  unfold aggregateResults. cbn [SetSpecsSkippedCount setExecutionTime SpecsFailedCount].
  rewrite fold_SpecsFailedCount; [reflexivity|].
  unfold in_range, min_int64, max_int64. cbn. lia.
Qed.

Lemma agg_SpecResults : SpecResults agg = concat (map SpecResults rs).
Proof.
  unfold aggregateResults. cbn [SetSpecsSkippedCount setExecutionTime SpecResults].
  now rewrite fold_SpecResults.
Qed.

Lemma agg_IsFailed : IsFailed agg = existsb IsFailed rs.
Proof.
  unfold aggregateResults. cbn [SetSpecsSkippedCount setExecutionTime IsFailed].
  now rewrite fold_IsFailed.
Qed.

Lemma agg_UnhandledErrors : UnhandledErrors agg = concat (map UnhandledErrors rs).
Proof.
  unfold aggregateResults. cbn [SetSpecsSkippedCount setExecutionTime UnhandledErrors].
  now rewrite fold_UnhandledErrors.
Qed.

Lemma agg_PreSuite : PreSuite agg = lastNonNil (map PreSuite rs).
Proof.
  unfold aggregateResults. cbn [SetSpecsSkippedCount setExecutionTime PreSuite].
  rewrite fold_PreSuite. now destruct (lastNonNil (map PreSuite rs)).
Qed.

Lemma agg_PostSuite : PostSuite agg = lastNonNil (map PostSuite rs).
Proof.
  unfold aggregateResults. cbn [SetSpecsSkippedCount setExecutionTime PostSuite].
  rewrite fold_PostSuite. now destruct (lastNonNil (map PostSuite rs)).
Qed.

Lemma agg_SpecsSkippedCount :
  SpecsSkippedCount agg = countSkipped (concat (map SpecResults rs)).
Proof.
  unfold aggregateResults. cbn [SetSpecsSkippedCount setExecutionTime SpecsSkippedCount SpecResults].
  now rewrite fold_SpecResults.
Qed.

Lemma agg_stamp :
  Tags agg = ExecuteTags /\ Timestamp agg = startTime e /\
  ExecutionTime agg = Z.quot since 1000000.
Proof.
  unfold aggregateResults.
  cbn [SetSpecsSkippedCount setExecutionTime Tags Timestamp ExecutionTime].
  destruct (fold_stamp rs (NewSuiteResult ExecuteTags (startTime e))) as (-> & -> & _).
  auto.
Qed.

End Fields.

(** Sums, flags and concatenations under a change of order. *)

Lemma sumZ_Permutation (l l' : list Z) : Permutation l l' -> sumZ l = sumZ l'.
Proof.
  unfold sumZ. induction 1 as [|x l l' _ IH|x y l|l l' l'' _ IH1 _ IH2]; cbn [foldr]; lia.
Qed.

Lemma existsb_Permutation {A} (f : A -> bool) (l l' : list A) :
  Permutation l l' -> existsb f l = existsb f l'.
Proof.
  induction 1 as [|x l l' _ IH|x y l|l l' l'' _ IH1 _ IH2]; cbn [existsb].
  - reflexivity.
  - now rewrite IH.
  - now destruct (f x), (f y).
  - congruence.
Qed.

Lemma concat_map_Permutation {A B} (f : A -> list B) (l l' : list A) :
  Permutation l l' -> Permutation (concat (map f l)) (concat (map f l')).
Proof.
  induction 1 as [|x l l' _ IH|x y l|l l' l'' _ IH1 _ IH2]; cbn [map concat].
  - reflexivity.
  - now apply Permutation_app_head.
  - rewrite !app_assoc. apply Permutation_app_tail, Permutation_app_comm.
  - now transitivity (concat (map f l')).
Qed.

Lemma countSkipped_Permutation (l l' : list SpecResult) :
  Permutation l l' -> countSkipped l = countSkipped l'.
Proof. intros H. unfold countSkipped. now rewrite H. Qed.

End AggregationFacts.

Module AggregationClaims.

Import Execution Spec Samples GoInt GoIntFacts AggregationFacts.

(** C4, as the claim words it, fails: of two streams that both carry a
    pre-suite hook result, the aggregate keeps the second one, not the
    first. *)
Lemma aggregate_keeps_last_hook :
  let r := aggregateResults "" coordinator 0 [streamA; streamB] in
  firstNonNil (map PreSuite [streamA; streamB]) = Some hookA /\
  PreSuite r = Some hookB /\
  PreSuite r <> firstNonNil (map PreSuite [streamA; streamB]).
Proof. repeat split. intros H. discriminate H. Qed.

(** C4 (amended): the aggregate's failed count is the sum of the streams'
    failed counts (in 64-bit arithmetic, so the sum itself whenever it
    fits), its spec results are the concatenation of the streams' spec
    results, its failure flag is the OR of the streams' flags, its
    unhandled errors are the concatenation of the streams' unhandled
    errors, and its pre- and post-suite hook results are the last non-nil
    ones among the streams. *)
Theorem aggregateResults_fields (ExecuteTags : string) (e : parallelExecution)
    (since : Config.Duration) (rs : list SuiteResult) :
  let r := aggregateResults ExecuteTags e since rs in
  SpecsFailedCount r = wrap64 (sumZ (map SpecsFailedCount rs)) /\
  (in_range (sumZ (map SpecsFailedCount rs)) ->
     SpecsFailedCount r = sumZ (map SpecsFailedCount rs)) /\
  SpecResults r = concat (map SpecResults rs) /\
  IsFailed r = existsb IsFailed rs /\
  UnhandledErrors r = concat (map UnhandledErrors rs) /\
  PreSuite r = lastNonNil (map PreSuite rs) /\
  PostSuite r = lastNonNil (map PostSuite rs).
Proof.
  cbv zeta. repeat split.
  - apply agg_SpecsFailedCount.
  - intros Hr. rewrite agg_SpecsFailedCount. now apply wrap64_in_range.
  - apply agg_SpecResults.
  - apply agg_IsFailed.
  - apply agg_UnhandledErrors.
  - apply agg_PreSuite.
  - apply agg_PostSuite.
Qed.

Lemma aggregateResults_fields_witness :
  let r := aggregateResults "" coordinator 0 [streamA; streamB] in
  SpecsFailedCount r = 1 /\
  SpecResults r = [specResultA; specResultB] /\
  IsFailed r = true /\
  PreSuite r = Some hookB.
Proof.
  intros r.
  destruct (aggregateResults_fields "" coordinator 0 [streamA; streamB])
    as (_ & Hsum & Hres & Hfail & _ & Hpre & _).
  split; [|split; [|split]].
  - apply Hsum. unfold in_range. vm_compute. split; intros H; discriminate H.
  - exact Hres.
  - exact Hfail.
  - exact Hpre.
Defined.

(** C5, as the claim words it, fails: the same two stream results in the
    other arrival order give an aggregate with its spec results in the
    other order and with the other stream's pre-suite hook result. *)
Lemma aggregate_depends_on_order :
  Permutation [streamA; streamB] [streamB; streamA] /\
  withoutExecutionTime (aggregateResults "" coordinator 0 [streamA; streamB])
  <> withoutExecutionTime (aggregateResults "" coordinator 0 [streamB; streamA]).
Proof.
  split.
  - apply perm_swap.
  - intros H. discriminate H.
Qed.

(** C5 (amended): for two arrival orders of the same stream results, the
    aggregates have the same failed count, failure flag, skipped count,
    tags, timestamp and (for the same elapsed time) execution time, and
    their spec results and unhandled errors are the same up to order. *)
Theorem aggregateResults_order (ExecuteTags : string) (e : parallelExecution)
    (since : Config.Duration) (rs rs' : list SuiteResult) :
  Permutation rs rs' ->
  let r := aggregateResults ExecuteTags e since rs in
  let r' := aggregateResults ExecuteTags e since rs' in
  SpecsFailedCount r = SpecsFailedCount r' /\
  IsFailed r = IsFailed r' /\
  SpecsSkippedCount r = SpecsSkippedCount r' /\
  Permutation (SpecResults r) (SpecResults r') /\
  Permutation (UnhandledErrors r) (UnhandledErrors r') /\
  Tags r = Tags r' /\ Timestamp r = Timestamp r' /\ ExecutionTime r = ExecutionTime r'.
Proof.
  intros Hp. cbv zeta.
  rewrite !agg_SpecsFailedCount, !agg_IsFailed, !agg_SpecsSkippedCount,
    !agg_SpecResults, !agg_UnhandledErrors.
  destruct (agg_stamp ExecuteTags e since rs) as (-> & -> & ->).
  destruct (agg_stamp ExecuteTags e since rs') as (-> & -> & ->).
  repeat split.
  - f_equal. apply sumZ_Permutation. now apply Permutation_map.
  - now apply existsb_Permutation.
  - apply countSkipped_Permutation. now apply concat_map_Permutation.
  - now apply concat_map_Permutation.
  - now apply concat_map_Permutation.
Qed.

Lemma aggregateResults_order_witness :
  let r := aggregateResults "" coordinator 0 [streamA; streamB] in
  let r' := aggregateResults "" coordinator 0 [streamB; streamA] in
  SpecsFailedCount r = SpecsFailedCount r' /\
  IsFailed r = IsFailed r' /\
  SpecsSkippedCount r = SpecsSkippedCount r' /\
  Permutation (SpecResults r) (SpecResults r') /\
  Permutation (UnhandledErrors r) (UnhandledErrors r') /\
  Tags r = Tags r' /\ Timestamp r = Timestamp r' /\ ExecutionTime r = ExecutionTime r'.
Proof.
  apply (aggregateResults_order "" coordinator 0 [streamA; streamB] [streamB; streamA]).
  apply perm_swap.
Defined.

End AggregationClaims.

(** ** Claims about one stream *)

Module StreamClaims.

Import Execution Spec Samples StreamFacts SystemFacts.

(** C2, as the claim words it, fails under the lazy strategy: the stream
    whose runner does not start reports one error, but that error is the
    plain text of the failure, not a [streamExecError], and it names no
    spec of the collection the stream was handed. *)
Lemma lazy_start_failure_names_no_spec :
  let s := {| Specs := [specA; specB] |} in
  firstStreamFails 1 = inr "no runner found" /\
  sends (trace (startStream firstStreamFails allPass s 1))
    = [SuiteResult_withErrors [Errorf "Failed to start runner. no runner found"]] /\
  forall r, In r (sends (trace (startStream firstStreamFails allPass s 1))) ->
    forall err, In err (UnhandledErrors r) ->
      forall x, err <> StreamExecErr x.
Proof.
  cbv zeta. split; [reflexivity|]. split; [reflexivity|].
  intros r [<-|[]] err [<-|[]] x H. discriminate H.
Qed.

(** C2 (amended): when the worker process of a stream fails to start, no
    execution is attempted and the stream reports a result with no spec
    results and exactly one unhandled error: under the eager strategy a
    [streamExecError] that names every spec of the stream's bucket, under
    the lazy strategy the plain error "Failed to start runner." followed
    by the reason. *)
Theorem start_failure_report {Runner : Type}
    (runner_Start : Z -> Runner + string)
    (simpleExecute : SpecCollection -> Runner -> Z -> SuiteResult)
    (s : SpecCollection) (stream : Z) (err : string) :
  runner_Start stream = inr err ->
  let eager := trace (startSpecsExecution runner_Start simpleExecute s stream) in
  let lazy := trace (startStream runner_Start simpleExecute s stream) in
  let reason := "Failed to start runner. " +:+ err in
  (Forall (fun ev => isExecute ev = false) eager /\
   exists r, sends eager = [r] /\
     UnhandledErrors r = [StreamExecErr {| specsSkipped := SpecNames s; message := reason |}] /\
     SpecResults r = []) /\
  (Forall (fun ev => isExecute ev = false) lazy /\
   exists r, sends lazy = [r] /\
     UnhandledErrors r = [Errorf reason] /\
     SpecResults r = []).
Proof.
  intros H. cbv zeta.
  rewrite (startSpecsExecution_failed _ _ s stream err H).
  rewrite (startStream_failed _ _ s stream err H).
  split; (split; [repeat constructor | eexists; repeat split]).
Qed.

Lemma start_failure_report_witness :
  let eager := trace (startSpecsExecution firstStreamFails allPass bucketA 1) in
  let lazy := trace (startStream firstStreamFails allPass bucketA 1) in
  let reason := "Failed to start runner. no runner found" in
  (Forall (fun ev => isExecute ev = false) eager /\
   exists r, sends eager = [r] /\
     UnhandledErrors r = [StreamExecErr {| specsSkipped := ["a.spec"]; message := reason |}] /\
     SpecResults r = []) /\
  (Forall (fun ev => isExecute ev = false) lazy /\
   exists r, sends lazy = [r] /\
     UnhandledErrors r = [Errorf reason] /\
     SpecResults r = []).
Proof.
  apply (start_failure_report firstStreamFails allPass bucketA 1 "no runner found").
  reflexivity.
Defined.

(** C8: when the worker process of a stream starts, the stream runs the
    executor, then kills the runner, then sends the executor's result as
    it is, whatever that result is, and nothing else happens in between;
    this holds under both strategies. *)
Theorem started_stream_trace {Runner : Type}
    (runner_Start : Z -> Runner + string)
    (simpleExecute : SpecCollection -> Runner -> Z -> SuiteResult)
    (s : SpecCollection) (stream : Z) (runner : Runner) :
  runner_Start stream = inl runner ->
  let result := simpleExecute s runner stream in
  trace (startSpecsExecutionWithRunner simpleExecute s runner stream)
    = [EvExecute s runner stream; EvKill runner; EvSend result] /\
  trace (startSpecsExecution runner_Start simpleExecute s stream)
    = [EvRunnerStart stream; EvExecute s runner stream; EvKill runner; EvSend result;
       EvWgDone] /\
  trace (startStream runner_Start simpleExecute s stream)
    = [EvRunnerStart stream; EvExecute s runner stream; EvKill runner; EvSend result;
       EvWgDone].
Proof.
  intros H. cbv zeta. split; [|split].
  - apply withRunner_trace.
  - now apply startSpecsExecution_started.
  - now apply startStream_started.
Qed.

Lemma started_stream_trace_witness :
  trace (startSpecsExecutionWithRunner allPass bucketB 2 2)
    = [EvExecute bucketB 2 2; EvKill 2; EvSend (allPass bucketB 2 2)] /\
  trace (startSpecsExecution firstStreamFails allPass bucketB 2)
    = [EvRunnerStart 2; EvExecute bucketB 2 2; EvKill 2; EvSend (allPass bucketB 2 2);
       EvWgDone] /\
  trace (startStream firstStreamFails allPass bucketB 2)
    = [EvRunnerStart 2; EvExecute bucketB 2 2; EvKill 2; EvSend (allPass bucketB 2 2);
       EvWgDone].
Proof.
  apply (started_stream_trace firstStreamFails allPass bucketB 2 2). reflexivity.
Defined.

(** C7: a stream worker, of either strategy and whether its worker process
    starts or not, sends on the result channel exactly once and counts the
    wait group down exactly once, after the send.  So for any goroutines
    of this kind started after [wg.Add] of their number: as long as the
    channel is open something can move, the channel is closed after
    finitely many steps, and when it is closed the receive loop holds one
    result per stream. *)
Theorem every_stream_sends_once {Runner : Type}
    (runner_Start : Z -> Runner + string)
    (simpleExecute : SpecCollection -> Runner -> Z -> SuiteResult)
    (workers : list (M Runner unit)) :
  Forall (isStreamWorker runner_Start simpleExecute) workers ->
  Forall (fun w => length (sends (trace w)) = 1%nat /\ dones (trace w) = 1%nat /\
                   last (trace w) = Some EvWgDone) workers /\
  forall sys, steps (spawn (Z.of_nat (length workers)) workers) sys ->
    (closed sys = false -> exists sys', step sys sys') /\
    (exists sys', steps sys sys' /\ closed sys' = true) /\
    (closed sys = true -> length (received sys) = length workers).
Proof.
  intros Hw.
  assert (Honce : Forall (fun w => reportsOnce (trace w)) workers).
  { eapply Forall_impl; [exact Hw|]. intros w (s & stream & [-> | ->]).
    - apply startStream_reportsOnce.
    - apply startSpecsExecution_reportsOnce. }
  split.
  - eapply Forall_impl; [exact Honce|]. intros w Hr. cbv beta.
    split; [now apply reportsOnce_sends|]. split; [now apply reportsOnce_dones|].
    destruct (reportsOnce_ends _ Hr) as [Hnil|Hlast]; [|exact Hlast].
    apply reportsOnce_dones in Hr. rewrite Hnil in Hr. discriminate Hr.
  - intros sys Hsteps.
    pose proof (steps_invariant _ _ _ (spawn_invariant workers Honce) Hsteps) as Hinv.
    split; [|split].
    + now apply (progress _ _ Hinv).
    + now apply (closes _ _ Hinv).
    + intros Hc. rewrite (Permutation_length (closed_received _ _ Hinv Hc)).
      clear - Honce. induction Honce as [|w l Hr _ IH]; [reflexivity|].
      cbn [map concat length]. rewrite sends_app, length_app, IH.
      now rewrite (reportsOnce_sends _ Hr).
Qed.

Lemma every_stream_sends_once_witness :
  let workers := [startSpecsExecution firstStreamFails allPass bucketA 1;
                  startSpecsExecution firstStreamFails allPass bucketB 2] in
  Forall (fun w => length (sends (trace w)) = 1%nat /\ dones (trace w) = 1%nat /\
                   last (trace w) = Some EvWgDone) workers /\
  forall sys, steps (spawn 2 workers) sys ->
    (closed sys = false -> exists sys', step sys sys') /\
    (exists sys', steps sys sys' /\ closed sys' = true) /\
    (closed sys = true -> length (received sys) = 2%nat).
Proof.
  apply (every_stream_sends_once firstStreamFails allPass
           [startSpecsExecution firstStreamFails allPass bucketA 1;
            startSpecsExecution firstStreamFails allPass bucketB 2]).
  repeat constructor.
  - exists bucketA, 1. now right.
  - exists bucketB, 2. now right.
Defined.

End StreamClaims.

(** ** Claims about a whole run *)

Module RunFacts.

Import Execution Spec StreamFacts SystemFacts AggregationFacts.

Section Run.

Context {Runner : Type}.
Variable runner_Start : Z -> Runner + string.
Variable simpleExecute : SpecCollection -> Runner -> Z -> SuiteResult.
Variable DistributeSpecs : list Specification -> Z -> list SpecCollection.

Local Abbreviation startSpecsExecution :=
  (startSpecsExecution runner_Start simpleExecute).
Local Abbreviation startStream := (startStream runner_Start simpleExecute).
Local Abbreviation eagerReport := (eagerReport runner_Start simpleExecute).
Local Abbreviation lazyReport := (lazyReport runner_Start simpleExecute).
Local Abbreviation eagerReports := (eagerReports runner_Start simpleExecute).
Local Abbreviation lazyReports := (lazyReports runner_Start simpleExecute).
Local Abbreviation runSystem := (runSystem runner_Start simpleExecute DistributeSpecs).

Lemma imap_sends {A} (f : nat -> A -> M Runner unit) (g : nat -> A -> SuiteResult)
    (l : list A) :
  (forall i a, sends (trace (f i a)) = [g i a]) ->
  sends (concat (map trace (imap f l))) = imap g l.
Proof.
  revert f g. induction l as [|a l IH]; intros f g Hfg; [reflexivity|].
  rewrite !imap_cons. cbn [map concat].
  rewrite sends_app, Hfg. cbn [app]. f_equal.
  apply IH. intros i b. apply Hfg.
Qed.

Lemma imap_reportsOnce {A} (f : nat -> A -> M Runner unit) (l : list A) :
  (forall i a, reportsOnce (trace (f i a))) ->
  Forall (fun w => reportsOnce (trace w)) (imap f l).
Proof.
  intros Hf. apply Forall_lookup. intros i w Hi.
  rewrite list_lookup_imap in Hi.
  destruct (l !! i) as [a|]; [|discriminate Hi].
  injection Hi as <-. apply Hf.
Qed.

(** The goroutines of an eager run, and what they report. *)
Lemma executeEagerly_workers (e : parallelExecution) (n : Z) :
  let ws := executeEagerly runner_Start simpleExecute DistributeSpecs e n in
  let buckets := DistributeSpecs (Specs (specCollection e)) n in
  length ws = length buckets /\
  Forall (fun w => reportsOnce (trace w)) ws /\
  sends (concat (map trace ws)) = eagerReports buckets.
Proof.
  cbv zeta. unfold executeEagerly. split; [apply length_imap|]. split.
  - apply imap_reportsOnce. intros i s. apply startSpecsExecution_reportsOnce.
  - apply imap_sends. intros i s. apply startSpecsExecution_sends.
Qed.

(** The goroutines of a lazy run, and what they report. *)
Lemma executeLazily_workers (e : parallelExecution) (n : Z) :
  let ws := executeLazily runner_Start simpleExecute e n in
  length ws = Z.to_nat n /\
  Forall (fun w => reportsOnce (trace w)) ws /\
  sends (concat (map trace ws)) = lazyReports (specCollection e) (Z.to_nat n).
Proof.
  cbv zeta. unfold executeLazily, Spec.lazyReports.
  split; [now rewrite length_map, length_seq|].
  generalize (seq 0 (Z.to_nat n)) as l. intros l. split.
  - induction l as [|i l IH]; constructor; [apply startStream_reportsOnce | exact IH].
  - induction l as [|i l IH]; [reflexivity|].
    cbn [map concat]. rewrite sends_app, startStream_sends, IH. reflexivity.
Qed.

(** What the receive loop of an eager run holds when the channel is
    closed, provided the distribution made as many buckets as it was
    asked for. *)
Lemma eager_run_invariant (Strategy : string) (e : parallelExecution) :
  isLazy Strategy = false ->
  let buckets := DistributeSpecs (Specs (specCollection e)) (numberOfStreams e) in
  Z.of_nat (length buckets) = numberOfStreams e ->
  invariant (eagerReports buckets) (runSystem Strategy e).
Proof.
  intros Hs buckets Hlen. unfold Execution.runSystem, streams. rewrite Hs.
  destruct (executeEagerly_workers e (numberOfStreams e)) as (Hl & Hw & Hr).
  fold buckets in Hl, Hr.
  set (ws := executeEagerly runner_Start simpleExecute DistributeSpecs e (numberOfStreams e)) in *.
  replace (numberOfStreams e) with (Z.of_nat (length ws)) by (rewrite Hl; exact Hlen).
  rewrite <- Hr. now apply spawn_invariant.
Qed.

Lemma lazy_run_invariant (Strategy : string) (e : parallelExecution) :
  isLazy Strategy = true ->
  0 <= numberOfStreams e ->
  invariant (lazyReports (specCollection e) (Z.to_nat (numberOfStreams e)))
            (runSystem Strategy e).
Proof.
  intros Hs Hn. unfold Execution.runSystem, streams. rewrite Hs.
  destruct (executeLazily_workers e (numberOfStreams e)) as (Hl & Hw & Hr).
  set (ws := executeLazily runner_Start simpleExecute e (numberOfStreams e)) in *.
  rewrite <- Hr.
  replace (numberOfStreams e) with (Z.of_nat (length ws)) by (rewrite Hl; lia).
  now apply spawn_invariant.
Qed.

(** The aggregate of the results of the streams when one of them failed
    to start and the others report no unhandled error. *)
Lemma aggregate_one_failure (ExecuteTags : string) (e : parallelExecution)
    (since : Config.Duration) (rs others : list SuiteResult) (err : error) :
  Permutation rs (SuiteResult_withErrors [err] :: others) ->
  Forall (fun r => UnhandledErrors r = []) others ->
  let result := aggregateResults ExecuteTags e since rs in
  UnhandledErrors result = [err] /\
  IsFailed result = existsb IsFailed others /\
  Permutation (SpecResults result) (concat (map SpecResults others)) /\
  SpecsFailedCount result = GoInt.wrap64 (sumZ (map SpecsFailedCount others)).
Proof.
  intros Hp Hothers. cbv zeta.
  rewrite agg_UnhandledErrors, agg_IsFailed, agg_SpecResults, agg_SpecsFailedCount.
  assert (Hnone : concat (map UnhandledErrors others) = []).
  { clear Hp. induction Hothers as [|r l Hr _ IH]; [reflexivity|].
    cbn [map concat]. now rewrite Hr, IH. }
  split; [|split; [|split]].
  - apply Permutation_singleton_r.
    rewrite (concat_map_Permutation UnhandledErrors _ _ Hp).
    cbn [map concat SuiteResult_withErrors UnhandledErrors]. now rewrite Hnone.
  - now rewrite (existsb_Permutation IsFailed _ _ Hp).
  - now rewrite (concat_map_Permutation SpecResults _ _ Hp).
  - f_equal. rewrite (sumZ_Permutation _ _ (Permutation_map SpecsFailedCount Hp)).
    reflexivity.
Qed.

(** In an eager run where only stream [k+1] fails to start, the other
    reports are the executor's results and carry no unhandled error. *)
Lemma eager_others (buckets : list SpecCollection) (k : nat) :
  (forall i s, i <> k -> buckets !! i = Some s ->
     exists runner, runner_Start (Z.of_nat i + 1) = inl runner /\
       UnhandledErrors (simpleExecute s runner (Z.of_nat i + 1)) = []) ->
  Forall (fun r => UnhandledErrors r = []) (delete k (eagerReports buckets)).
Proof.
  intros Hok. apply Forall_lookup. intros j r Hj.
  assert (Hi : exists i, i <> k /\ eagerReports buckets !! i = Some r).
  { destruct (decide (j < k)%nat) as [Hlt|Hge].
    - rewrite list_lookup_delete_lt in Hj by exact Hlt. exists j. split; [lia | exact Hj].
    - rewrite list_lookup_delete_ge in Hj by lia. exists (S j). split; [lia | exact Hj]. }
  destruct Hi as (i & Hne & Hi). unfold Spec.eagerReports in Hi.
  rewrite list_lookup_imap in Hi.
  destruct (buckets !! i) as [s|] eqn:Hb; [|discriminate Hi].
  injection Hi as <-. destruct (Hok i s Hne Hb) as (runner & Hstart & Herrs).
  unfold Spec.eagerReport. now rewrite Hstart.
Qed.

End Run.

End RunFacts.

Module RunClaims.

Import Execution Spec Samples StreamFacts SystemFacts AggregationFacts RunFacts.

(** C3, as the claim words it, fails: in an eager run of two streams where
    the runner of stream 1 does not start and stream 2 passes, the run
    ends, its aggregate holds the one error of stream 1 and the result of
    stream 2, and its failure flag is not set. *)
Lemma start_failure_leaves_flag_clear :
  firstStreamFails 1 = inr "no runner found" /\
  firstStreamFails 2 = inl 2 /\
  exists result,
    run firstStreamFails allPass onePerBucket "eager" "" coordinator 0 result /\
    UnhandledErrors result
      = [StreamExecErr {| specsSkipped := ["a.spec"];
                          message := "Failed to start runner. no runner found" |}] /\
    Permutation (SpecResults result) (SpecResults (allPass bucketB 2 2)) /\
    IsFailed result = false.
Proof.
  split; [reflexivity|]. split; [reflexivity|].
  assert (Hinv : invariant (eagerReports firstStreamFails allPass [bucketA; bucketB])
                   (runSystem firstStreamFails allPass onePerBucket "eager" coordinator)).
  { apply (eager_run_invariant firstStreamFails allPass onePerBucket "eager" coordinator);
      reflexivity. }
  destruct (closes _ _ Hinv) as (sys & Hsteps & Hclosed).
  pose proof (closed_received _ _ (steps_invariant _ _ _ Hinv Hsteps) Hclosed) as Hp.
  exists (aggregateResults "" coordinator 0 (received sys)).
  split; [now constructor|].
  destruct (aggregate_one_failure "" coordinator 0 (received sys) [allPass bucketB 2 2]
              (StreamExecErr {| specsSkipped := ["a.spec"];
                                message := "Failed to start runner. no runner found" |}))
    as (Herr & Hfail & Hres & _).
  - exact Hp.
  - repeat constructor.
  - split; [exact Herr|]. split; [|exact Hfail].
    cbn [map concat] in Hres. now rewrite app_nil_r in Hres.
Qed.

(** C3 (amended): in an eager run whose distribution made as many buckets
    as there are streams, if the runner of exactly one stream fails to
    start and every other stream's runner starts and its executor returns
    a result without unhandled errors, then the run ends and returns an
    aggregate: while the channel is open something can move, and a result
    exists.  When the channel is closed the receive loop holds the failed
    stream's report and the other streams' results unchanged, and the
    aggregate that is returned has exactly one unhandled error,
    the [streamExecError] naming the specs of the failed stream's bucket;
    its spec results are those of the other streams; its failed count is
    their sum; and its failure flag is the OR of the other streams' flags:
    the start failure does not set it. *)
Theorem one_stream_fails_to_start {Runner : Type}
    (runner_Start : Z -> Runner + string)
    (simpleExecute : SpecCollection -> Runner -> Z -> SuiteResult)
    (DistributeSpecs : list Specification -> Z -> list SpecCollection)
    (Strategy ExecuteTags : string) (e : parallelExecution) (since : Config.Duration)
    (k : nat) (sk : SpecCollection) (err : string) :
  let buckets := DistributeSpecs (Specs (specCollection e)) (numberOfStreams e) in
  let others := delete k (eagerReports runner_Start simpleExecute buckets) in
  isLazy Strategy = false ->
  Z.of_nat (length buckets) = numberOfStreams e ->
  buckets !! k = Some sk ->
  runner_Start (Z.of_nat k + 1) = inr err ->
  (forall i s, i <> k -> buckets !! i = Some s ->
     exists runner, runner_Start (Z.of_nat i + 1) = inl runner /\
       UnhandledErrors (simpleExecute s runner (Z.of_nat i + 1)) = []) ->
  (exists result,
     run runner_Start simpleExecute DistributeSpecs Strategy ExecuteTags e since result) /\
  (forall sys,
     steps (runSystem runner_Start simpleExecute DistributeSpecs Strategy e) sys ->
     closed sys = false -> exists sys', step sys sys') /\
  (forall sys,
     steps (runSystem runner_Start simpleExecute DistributeSpecs Strategy e) sys ->
     closed sys = true ->
     Permutation (received sys) (eagerStartFailure sk err :: others)) /\
  (forall i s runner, i <> k -> buckets !! i = Some s ->
     runner_Start (Z.of_nat i + 1) = inl runner ->
     In (simpleExecute s runner (Z.of_nat i + 1)) others) /\
  (forall result,
     run runner_Start simpleExecute DistributeSpecs Strategy ExecuteTags e since result ->
     UnhandledErrors result
       = [StreamExecErr {| specsSkipped := SpecNames sk;
                           message := "Failed to start runner. " +:+ err |}] /\
     IsFailed result = existsb IsFailed others /\
     Permutation (SpecResults result) (concat (map SpecResults others)) /\
     SpecsFailedCount result = GoInt.wrap64 (sumZ (map SpecsFailedCount others))).
Proof.
  intros buckets others Hs Hlen Hk Hfail Hok.
  pose proof (eager_run_invariant runner_Start simpleExecute DistributeSpecs
                Strategy e Hs Hlen) as Hinv.
  fold buckets in Hinv.
  assert (Hreport : eagerReports runner_Start simpleExecute buckets !! k
                    = Some (eagerStartFailure sk err)).
  { unfold eagerReports. rewrite list_lookup_imap, Hk. cbn.
    unfold eagerReport. now rewrite Hfail. }
  assert (Hrecv : forall sys,
            steps (runSystem runner_Start simpleExecute DistributeSpecs Strategy e) sys ->
            closed sys = true ->
            Permutation (received sys) (eagerStartFailure sk err :: others)).
  { intros sys Hsteps Hclosed.
    rewrite (closed_received _ _ (steps_invariant _ _ _ Hinv Hsteps) Hclosed).
    now apply delete_Permutation. }
  split.
  { destruct (closes _ _ Hinv) as (sys & Hsteps & Hclosed).
    exists (aggregateResults ExecuteTags e since (received sys)). now constructor. }
  split.
  { intros sys Hsteps. apply (progress _ _ (steps_invariant _ _ _ Hinv Hsteps)). }
  split; [exact Hrecv|]. split.
  - intros i s runner Hne Hb Hstart.
    assert (Hi : eagerReports runner_Start simpleExecute buckets !! i
                 = Some (simpleExecute s runner (Z.of_nat i + 1))).
    { unfold eagerReports. rewrite list_lookup_imap, Hb. cbn.
      unfold eagerReport. now rewrite Hstart. }
    apply list_elem_of_In, list_elem_of_lookup. unfold others.
    destruct (decide (i < k)%nat) as [Hlt|Hge].
    + exists i. now rewrite list_lookup_delete_lt.
    + destruct i as [|i]; [lia|]. exists i. rewrite list_lookup_delete_ge by lia. exact Hi.
  - intros result Hrun. destruct Hrun as [sys Hsteps Hclosed].
    apply (aggregate_one_failure ExecuteTags e since (received sys) others).
    + now apply Hrecv.
    + now apply eager_others.
Qed.

Lemma one_stream_fails_to_start_witness :
  exists result,
    run firstStreamFails allPass onePerBucket "eager" "" coordinator 0 result /\
    UnhandledErrors result
      = [StreamExecErr {| specsSkipped := ["a.spec"];
                          message := "Failed to start runner. no runner found" |}] /\
    IsFailed result = false /\
    Permutation (SpecResults result) (SpecResults (allPass bucketB 2 2)) /\
    SpecsFailedCount result = 0.
Proof.
  destruct (one_stream_fails_to_start firstStreamFails allPass onePerBucket
              "eager" "" coordinator 0 0%nat bucketA "no runner found")
    as ((result & Hrun) & _ & _ & _ & Hagg).
  - reflexivity.
  - reflexivity.
  - reflexivity.
  - reflexivity.
  - intros i s Hne Hb. destruct i as [|[|i]]; [congruence| |discriminate Hb].
    injection Hb as <-. exists 2. split; reflexivity.
  - exists result. split; [exact Hrun|].
    destruct (Hagg _ Hrun) as (Herr & Hfail & Hres & Hcount).
    split; [exact Herr|]. split; [exact Hfail|]. split; [exact Hres | exact Hcount].
Defined.

End RunClaims.

(** ** More of [config/configuration.go] *)

Module TrimFacts.

Import GoStrings.

Ltac bool_to_N :=
  repeat match goal with
         | H : (_ && _)%bool = true |- _ => apply andb_prop in H; destruct H
         | H : (_ || _)%bool = true |- _ => apply orb_prop in H; destruct H
         | H : (_ =? _)%N = true |- _ => apply N.eqb_eq in H
         | H : (_ <=? _)%N = true |- _ => apply N.leb_le in H
         end.

Lemma isAsciiSpace_low (c : ascii) : isAsciiSpace c = true -> (N_of_ascii c < 128)%N.
Proof. unfold isAsciiSpace. cbv zeta. intros H. bool_to_N; lia. Qed.

Lemma isSpace2_high (b1 b2 : ascii) :
  isSpace2 b1 b2 = true -> (128 <= N_of_ascii b1)%N /\ (128 <= N_of_ascii b2)%N.
Proof. unfold isSpace2. cbv zeta. intros H. bool_to_N; lia. Qed.

Lemma isSpace3_high (b1 b2 b3 : ascii) :
  isSpace3 b1 b2 b3 = true ->
  (128 <= N_of_ascii b1)%N /\ (128 <= N_of_ascii b2)%N /\ (128 <= N_of_ascii b3)%N.
Proof. unfold isSpace3. cbv zeta. intros H. bool_to_N; lia. Qed.

Lemma isSpace2_not_blank_r (b1 b2 : ascii) : isAsciiSpace b2 = true -> isSpace2 b1 b2 = false.
Proof.
  intros H2. destruct (isSpace2 b1 b2) eqn:H; [|reflexivity].
  apply isSpace2_high in H. apply isAsciiSpace_low in H2. lia.
Qed.

Lemma isSpace3_not_blank_2 (b1 b2 b3 : ascii) :
  isAsciiSpace b2 = true -> isSpace3 b1 b2 b3 = false.
Proof.
  intros H2. destruct (isSpace3 b1 b2 b3) eqn:H; [|reflexivity].
  apply isSpace3_high in H. apply isAsciiSpace_low in H2. lia.
Qed.

Lemma isSpace3_not_blank_3 (b1 b2 b3 : ascii) :
  isAsciiSpace b3 = true -> isSpace3 b1 b2 b3 = false.
Proof.
  intros H3. destruct (isSpace3 b1 b2 b3) eqn:H; [|reflexivity].
  apply isSpace3_high in H. apply isAsciiSpace_low in H3. lia.
Qed.

Lemma trimLeft_blank_app (l s : list ascii) :
  Forall (fun c => isAsciiSpace c = true) l -> trimLeft (l ++ s) = trimLeft s.
Proof.
  induction 1 as [|c l Hc _ IH]; [reflexivity|].
  cbn [app trimLeft]. now rewrite Hc.
Qed.

Lemma trimLeftRev_blank_app (l s : list ascii) :
  Forall (fun c => isAsciiSpace c = true) l -> trimLeftRev (l ++ s) = trimLeftRev s.
Proof.
  induction 1 as [|c l Hc _ IH]; [reflexivity|].
  cbn [app trimLeftRev]. now rewrite Hc.
Qed.

Lemma trimLeft_blank (l : list ascii) :
  Forall (fun c => isAsciiSpace c = true) l -> trimLeft l = [].
Proof. intros H. rewrite <- (app_nil_r l). now rewrite trimLeft_blank_app. Qed.

(** Blanks appended to a string stay where they are when the front is
    trimmed, unless the string is white space altogether. *)
Lemma trimLeft_app_blank (r : list ascii) :
  Forall (fun c => isAsciiSpace c = true) r ->
  forall v, trimLeft (v ++ r) = match trimLeft v with [] => [] | t => t ++ r end.
Proof.
  intros Hr v. remember (length v) as n eqn:Hn. revert v Hn.
  induction n as [n IH] using lt_wf_ind. intros v Hn.
  destruct v as [|b1 v1].
  - cbn [app trimLeft]. now apply trimLeft_blank.
  - cbn [app trimLeft]. destruct (isAsciiSpace b1) eqn:H1.
    + apply (IH (length v1)); [cbn in Hn; lia | reflexivity].
    + destruct v1 as [|b2 v2].
      * cbn [app]. destruct Hr as [|c2 r2 Hc2 Hr2]; [reflexivity|].
        rewrite (isSpace2_not_blank_r b1 c2 Hc2).
        destruct Hr2 as [|c3 r3 Hc3 Hr3]; [reflexivity|].
        now rewrite (isSpace3_not_blank_2 b1 c2 c3 Hc2).
      * cbn [app]. destruct (isSpace2 b1 b2) eqn:H2.
        -- apply (IH (length v2)); [cbn in Hn; lia | reflexivity].
        -- destruct v2 as [|b3 v3].
           ++ cbn [app]. destruct Hr as [|c3 r3 Hc3 Hr3]; [reflexivity|].
              now rewrite (isSpace3_not_blank_3 b1 b2 c3 Hc3).
           ++ cbn [app]. destruct (isSpace3 b1 b2 b3) eqn:H3.
              ** apply (IH (length v3)); [cbn in Hn; lia | reflexivity].
              ** reflexivity.
Qed.

Lemma trimRight_app_blank (s r : list ascii) :
  Forall (fun c => isAsciiSpace c = true) r -> trimRight (s ++ r) = trimRight s.
Proof.
  intros Hr. unfold trimRight. rewrite rev_app_distr.
  rewrite trimLeftRev_blank_app; [reflexivity|].
  apply Forall_forall. intros c Hc. rewrite Forall_forall in Hr.
  apply Hr. apply list_elem_of_In. apply list_elem_of_In in Hc. now apply in_rev.
Qed.

Lemma trimRight_nil : trimRight [] = [].
Proof. reflexivity. Qed.

Lemma list_ascii_app (s1 s2 : string) :
  list_ascii_of_string (s1 +:+ s2) = list_ascii_of_string s1 ++ list_ascii_of_string s2.
Proof.
  induction s1 as [|c s1 IH]; [reflexivity|].
  rewrite StringFacts.append_cons. cbn [list_ascii_of_string app]. now rewrite IH.
Qed.

(** White space around a value does not change what [TrimSpace] leaves. *)
Lemma TrimSpace_padding (l v r : string) :
  Spec.blank l -> Spec.blank r -> TrimSpace (l +:+ v +:+ r) = TrimSpace v.
Proof.
  unfold Spec.blank, TrimSpace. intros Hl Hr. f_equal.
  rewrite !list_ascii_app, (trimLeft_blank_app _ _ Hl), (trimLeft_app_blank _ Hr).
  destruct (trimLeft (list_ascii_of_string v)) as [|c t]; [reflexivity|].
  now apply trimRight_app_blank.
Qed.

Example TrimSpace_ascii :
  TrimSpace (String (ascii_of_nat 9) " true " +:+ Execution.nl) = "true".
Proof. reflexivity. Qed.

(** The no-break space U+00A0 (bytes 194, 160) and the ideographic space
    U+3000 (bytes 227, 128, 128) are trimmed as well; a lone continuation
    byte is not. *)
Example TrimSpace_unicode :
  TrimSpace (String (ascii_of_nat 194) (String (ascii_of_nat 160) "on")
             +:+ String (ascii_of_nat 227) (String (ascii_of_nat 128)
                   (String (ascii_of_nat 128) ""))) = "on" /\
  TrimSpace (String (ascii_of_nat 160) "on") = String (ascii_of_nat 160) "on".
Proof. split; reflexivity. Qed.

End TrimFacts.

Module ConfigExtras.

Import Config Spec GoInt GoIntFacts ConfigFacts TrimFacts.

(** Unfolding the readers: each one is [convertToTime] or [convertToBool]
    applied to what [getFromConfig] returns. *)

Lemma PluginConnectionTimeout_value (props : Properties) :
  value (PluginConnectionTimeout props)
  = value (convertToTime (value (getFromConfig props pluginConnectionTimeout))
             defaultPluginConnectionTimeout pluginConnectionTimeout).
Proof.
  unfold PluginConnectionTimeout, value.
  destruct (getFromConfig props pluginConnectionTimeout) as [w1 s]. cbn [snd].
  destruct (convertToTime s _ _) as [w2 d]. reflexivity.
Qed.

Lemma PluginKillTimeout_value (props : Properties) :
  value (PluginKillTimeout props)
  = value (convertToTime (value (getFromConfig props pluginKillTimeOut))
             defaultPluginKillTimeout pluginKillTimeOut).
Proof.
  unfold PluginKillTimeout, value.
  destruct (getFromConfig props pluginKillTimeOut) as [w1 s]. cbn [snd].
  destruct (convertToTime s _ _) as [w2 d]. reflexivity.
Qed.

Lemma CheckUpdates_value (props : Properties) :
  value (CheckUpdates props)
  = value (convertToBool (value (getFromConfig props checkUpdates)) checkUpdates true).
Proof.
  unfold CheckUpdates, value.
  destruct (getFromConfig props checkUpdates) as [w1 s]. cbn [snd].
  destruct (convertToBool s _ _) as [w2 d]. reflexivity.
Qed.

Lemma TelemetryLogEnabled_value (props : Properties) :
  value (TelemetryLogEnabled props)
  = value (convertToBool (value (getFromConfig props telemetryLoggingEnabled))
             telemetryLoggingEnabled false).
Proof.
  unfold TelemetryLogEnabled, value.
  destruct (getFromConfig props telemetryLoggingEnabled) as [w1 s]. cbn [snd].
  destruct (convertToBool s _ _) as [w2 d]. reflexivity.
Qed.

Lemma RunnerRequestTimeout_value (env : gmap string string) (props : Properties) :
  value (RunnerRequestTimeout env props)
  = value (convertToTime
             (if String.eqb (Getenv env runnerRequestTimeout) ""
              then value (getFromConfig props runnerRequestTimeout)
              else Getenv env runnerRequestTimeout)
             defaultRunnerRequestTimeout runnerRequestTimeout).
Proof.
  unfold RunnerRequestTimeout, value.
  destruct (String.eqb (Getenv env runnerRequestTimeout) "").
  - destruct (getFromConfig props runnerRequestTimeout) as [w1 s]. cbn [snd].
    destruct (convertToTime s _ _) as [w2 d]. reflexivity.
  - destruct (convertToTime _ _ _) as [w2 d]. reflexivity.
Qed.

Lemma IdeRequestTimeout_value (env : gmap string string) (props : Properties) :
  value (IdeRequestTimeout env props)
  = value (convertToTime
             (if String.eqb (Getenv env ideRequestTimeout) ""
              then value (getFromConfig props ideRequestTimeout)
              else Getenv env ideRequestTimeout)
             defaultIdeRequestTimeout ideRequestTimeout).
Proof.
  unfold IdeRequestTimeout, value.
  destruct (String.eqb (Getenv env ideRequestTimeout) "").
  - destruct (getFromConfig props ideRequestTimeout) as [w1 s]. cbn [snd].
    destruct (convertToTime s _ _) as [w2 d]. reflexivity.
  - destruct (convertToTime _ _ _) as [w2 d]. reflexivity.
Qed.

Lemma TelemetryEnabled_value (env : gmap string string) (props : Properties) :
  value (TelemetryEnabled env props)
  = value (convertToBool
             (if String.eqb (Getenv env "GAUGE_TELEMETRY_ENABLED") ""
              then value (getFromConfig props telemetryEnabled)
              else Getenv env "GAUGE_TELEMETRY_ENABLED")
             telemetryEnabled true).
Proof.
  unfold TelemetryEnabled, value.
  change (GoStrings.ToUpper telemetryEnabled) with "GAUGE_TELEMETRY_ENABLED".
  destruct (String.eqb (Getenv env "GAUGE_TELEMETRY_ENABLED") "").
  - destruct (getFromConfig props telemetryEnabled) as [w1 s]. cbn [snd].
    destruct (convertToBool s _ _) as [w2 d]. reflexivity.
  - destruct (convertToBool _ _ _) as [w2 d]. reflexivity.
Qed.

Lemma getFromConfig_unreadable (props : Properties) (key : string) :
  unreadable props key -> value (getFromConfig props key) = "".
Proof.
  destruct props as [config|err]; cbn; [|reflexivity].
  intros H. unfold getFromConfig, value. cbn. now rewrite H.
Qed.

Lemma ParseBool_spellings (str : string) (b : bool) :
  Strconv.ParseBool str = Some b <-> In str (spellings b).
Proof.
  unfold Strconv.ParseBool.
  destruct (existsb (String.eqb str) ["1"; "t"; "T"; "TRUE"; "true"; "True"]) eqn:Ht;
    [|destruct (existsb (String.eqb str) ["0"; "f"; "F"; "FALSE"; "false"; "False"]) eqn:Hf].
  - apply existsb_exists in Ht as (x & Hin & Hx). apply String.eqb_eq in Hx. subst x.
    destruct b; [tauto|]. split; [discriminate|].
    intros Hin'. exfalso. cbn in Hin, Hin'.
    repeat match goal with H : _ \/ _ |- _ => destruct H end; congruence.
  - apply existsb_exists in Hf as (x & Hin & Hx). apply String.eqb_eq in Hx. subst x.
    destruct b; [|tauto]. split; [discriminate|].
    intros Hin'. exfalso. cbn in Hin, Hin'.
    repeat match goal with H : _ \/ _ |- _ => destruct H end; congruence.
  - split; [discriminate|]. intros Hin. exfalso.
    assert (Hex : forall l, In str l -> existsb (String.eqb str) l = true).
    { intros l Hl. apply existsb_exists. exists str. split; [exact Hl | apply String.eqb_refl]. }
    destruct b; pose proof (Hex _ Hin) as E; unfold spellings in E; congruence.
Qed.

(** X1: a reader whose property is missing, or whose properties cannot be
    read at all, returns its default: 10 s and 4 s for the plugin timeouts,
    30 s for the two request timeouts and true for the telemetry switch when
    their environment variable is unset or empty as well, true for the
    update check, false for telemetry logging, and the empty string for the
    three URLs. *)
Theorem defaults_when_missing (env : gmap string string) (props : Properties) :
  (unreadable props pluginConnectionTimeout ->
     value (PluginConnectionTimeout props) = seconds 10) /\
  (unreadable props pluginKillTimeOut ->
     value (PluginKillTimeout props) = seconds 4) /\
  (Getenv env runnerRequestTimeout = "" -> unreadable props runnerRequestTimeout ->
     value (RunnerRequestTimeout env props) = seconds 30) /\
  (Getenv env ideRequestTimeout = "" -> unreadable props ideRequestTimeout ->
     value (IdeRequestTimeout env props) = seconds 30) /\
  (unreadable props checkUpdates -> value (CheckUpdates props) = true) /\
  (Getenv env "GAUGE_TELEMETRY_ENABLED" = "" -> unreadable props telemetryEnabled ->
     value (TelemetryEnabled env props) = true) /\
  (unreadable props telemetryLoggingEnabled ->
     value (TelemetryLogEnabled props) = false) /\
  (unreadable props gaugeRepositoryURL -> value (GaugeRepositoryUrl props) = "") /\
  (unreadable props gaugeUpdateURL -> value (GaugeUpdateUrl props) = "") /\
  (unreadable props gaugeTemplatesURL -> value (GaugeTemplatesUrl props) = "").
Proof.
  repeat split.
  - intros H. now rewrite PluginConnectionTimeout_value, getFromConfig_unreadable.
  - intros H. now rewrite PluginKillTimeout_value, getFromConfig_unreadable.
  - intros He H. rewrite RunnerRequestTimeout_value, He. cbn [String.eqb].
    now rewrite getFromConfig_unreadable.
  - intros He H. rewrite IdeRequestTimeout_value, He. cbn [String.eqb].
    now rewrite getFromConfig_unreadable.
  - intros H. now rewrite CheckUpdates_value, getFromConfig_unreadable.
  - intros He H. rewrite TelemetryEnabled_value, He. cbn [String.eqb].
    now rewrite getFromConfig_unreadable.
  - intros H. now rewrite TelemetryLogEnabled_value, getFromConfig_unreadable.
  - intros H. now apply getFromConfig_unreadable.
  - intros H. now apply getFromConfig_unreadable.
  - intros H. now apply getFromConfig_unreadable.
Qed.

Lemma defaults_when_missing_witness :
  value (PluginConnectionTimeout (inl ∅)) = seconds 10 /\
  value (PluginKillTimeout (inr "no properties file")) = seconds 4 /\
  value (RunnerRequestTimeout ∅ (inl {[ "check_updates" := "false" ]})) = seconds 30 /\
  value (CheckUpdates (inl ∅)) = true /\
  value (TelemetryEnabled {[ "GAUGE_TELEMETRY_ENABLED" := "" ]} (inl ∅)) = true /\
  value (TelemetryLogEnabled (inr "no properties file")) = false.
Proof.
  pose proof (defaults_when_missing ∅ (inl ∅)) as (H1 & _ & _ & _ & H5 & _).
  pose proof (defaults_when_missing ∅ (inr "no properties file")) as (_ & H2 & _ & _ & _ & _ & H7 & _).
  pose proof (defaults_when_missing ∅ (inl {[ "check_updates" := "false" ]}))
    as (_ & _ & H3 & _).
  pose proof (defaults_when_missing {[ "GAUGE_TELEMETRY_ENABLED" := "" ]} (inl ∅))
    as (_ & _ & _ & _ & _ & H6 & _).
  split; [apply H1; reflexivity|].
  split; [apply H2; exact I|].
  split; [apply H3; reflexivity|].
  split; [apply H5; reflexivity|].
  split; [apply H6; reflexivity|].
  apply H7. exact I.
Defined.

(** X2: a request timeout is taken from the environment variable of its
    name whenever that variable is not empty: the result is what
    [convertToTime] makes of the variable, so a variable that parses as [v]
    gives [v] milliseconds (when that fits a duration) and a malformed one
    gives the 30 s default; the properties are then not read at all, even
    if they hold a good value.  An unset or empty variable leaves the
    decision to the properties. *)
Theorem request_timeout_environment_first (env : gmap string string) :
  (Getenv env runnerRequestTimeout <> "" ->
     (forall props props', RunnerRequestTimeout env props = RunnerRequestTimeout env props') /\
     (forall props, value (RunnerRequestTimeout env props)
        = value (convertToTime (Getenv env runnerRequestTimeout)
                   defaultRunnerRequestTimeout runnerRequestTimeout)) /\
     (forall v, Strconv.Atoi (Getenv env runnerRequestTimeout) = Some v ->
        in_range (milliseconds v) ->
        forall props, value (RunnerRequestTimeout env props) = milliseconds v) /\
     (Strconv.Atoi (Getenv env runnerRequestTimeout) = None ->
        forall props, value (RunnerRequestTimeout env props) = seconds 30)) /\
  (Getenv env ideRequestTimeout <> "" ->
     (forall props props', IdeRequestTimeout env props = IdeRequestTimeout env props') /\
     (forall props, value (IdeRequestTimeout env props)
        = value (convertToTime (Getenv env ideRequestTimeout)
                   defaultIdeRequestTimeout ideRequestTimeout)) /\
     (forall v, Strconv.Atoi (Getenv env ideRequestTimeout) = Some v ->
        in_range (milliseconds v) ->
        forall props, value (IdeRequestTimeout env props) = milliseconds v) /\
     (Strconv.Atoi (Getenv env ideRequestTimeout) = None ->
        forall props, value (IdeRequestTimeout env props) = seconds 30)) /\
  (Getenv env runnerRequestTimeout = "" ->
     forall props, value (RunnerRequestTimeout env props)
       = value (convertToTime (value (getFromConfig props runnerRequestTimeout))
                  defaultRunnerRequestTimeout runnerRequestTimeout)) /\
  (Getenv env ideRequestTimeout = "" ->
     forall props, value (IdeRequestTimeout env props)
       = value (convertToTime (value (getFromConfig props ideRequestTimeout))
                  defaultIdeRequestTimeout ideRequestTimeout)).
Proof.
  split; [|split; [|split]].
  - intros He. apply String.eqb_neq in He.
    assert (Hv : forall props, value (RunnerRequestTimeout env props)
                 = value (convertToTime (Getenv env runnerRequestTimeout)
                            defaultRunnerRequestTimeout runnerRequestTimeout)).
    { intros props. now rewrite RunnerRequestTimeout_value, He. }
    split; [|split; [exact Hv|split]].
    + intros props props'. unfold RunnerRequestTimeout. now rewrite He.
    + intros v Ha Hr props. rewrite Hv.
      now apply (proj2 (proj2 (convertToTime_value _ _ _)) v).
    + intros Ha props. rewrite Hv. unfold convertToTime. now rewrite Ha.
  - intros He. apply String.eqb_neq in He.
    assert (Hv : forall props, value (IdeRequestTimeout env props)
                 = value (convertToTime (Getenv env ideRequestTimeout)
                            defaultIdeRequestTimeout ideRequestTimeout)).
    { intros props. now rewrite IdeRequestTimeout_value, He. }
    split; [|split; [exact Hv|split]].
    + intros props props'. unfold IdeRequestTimeout. now rewrite He.
    + intros v Ha Hr props. rewrite Hv.
      now apply (proj2 (proj2 (convertToTime_value _ _ _)) v).
    + intros Ha props. rewrite Hv. unfold convertToTime. now rewrite Ha.
  - intros He props. now rewrite RunnerRequestTimeout_value, He.
  - intros He props. now rewrite IdeRequestTimeout_value, He.
Qed.

Lemma request_timeout_environment_first_witness :
  let malformed : gmap string string := {[ "runner_request_timeout" := "soon" ]} in
  let set : gmap string string :=
    {[ "runner_request_timeout" := "1200"; "ide_request_timeout" := "700" ]} in
  let good : Properties := inl {[ "runner_request_timeout" := "500" ]} in
  value (RunnerRequestTimeout set good) = milliseconds 1200 /\
  value (IdeRequestTimeout set good) = milliseconds 700 /\
  value (RunnerRequestTimeout malformed good) = seconds 30 /\
  value (RunnerRequestTimeout ∅ good) = milliseconds 500 /\
  value (IdeRequestTimeout malformed good) = seconds 30.
Proof.
  intros malformed set good.
  destruct (request_timeout_environment_first malformed) as (Hr & _ & _ & Hi).
  destruct (request_timeout_environment_first set) as (Hrs & His & _ & _).
  destruct (request_timeout_environment_first ∅) as (_ & _ & Hr0 & _).
  assert (Hfits : forall v, -1000000 <= v <= 1000000 -> in_range (milliseconds v)).
  { intros v Hv. unfold in_range, min_int64, max_int64, milliseconds. lia. }
  split; [|split; [|split; [|split]]].
  - destruct Hrs as (_ & _ & Hv & _); [discriminate|].
    apply (Hv 1200); [reflexivity | apply Hfits; lia].
  - destruct His as (_ & _ & Hv & _); [discriminate|].
    apply (Hv 700); [reflexivity | apply Hfits; lia].
  - destruct Hr as (_ & _ & _ & Hbad); [discriminate|]. now apply Hbad.
  - rewrite (Hr0 eq_refl good). reflexivity.
  - rewrite (Hi eq_refl good). reflexivity.
Defined.

(** X3: the telemetry switch is taken from the environment variable
    GAUGE_TELEMETRY_ENABLED, in upper case, whenever it is not empty: the
    result is what [convertToBool] makes of the variable with the default
    true, so a variable that is a spelling of [b] (with or without white
    space around it) gives [b], and a value that is not a boolean spelling
    switches telemetry on; the properties are then not read, whatever they
    say.  An unset or empty variable leaves the decision to the
    properties. *)
Theorem telemetry_environment_first (env : gmap string string) :
  (Getenv env "GAUGE_TELEMETRY_ENABLED" <> "" ->
     (forall props props', TelemetryEnabled env props = TelemetryEnabled env props') /\
     (forall props, value (TelemetryEnabled env props)
        = value (convertToBool (Getenv env "GAUGE_TELEMETRY_ENABLED")
                   telemetryEnabled true)) /\
     (forall b, In (GoStrings.TrimSpace (Getenv env "GAUGE_TELEMETRY_ENABLED")) (spellings b) ->
        forall props, value (TelemetryEnabled env props) = b) /\
     (Strconv.ParseBool (GoStrings.TrimSpace (Getenv env "GAUGE_TELEMETRY_ENABLED")) = None ->
        forall props, value (TelemetryEnabled env props) = true)) /\
  (Getenv env "GAUGE_TELEMETRY_ENABLED" = "" ->
     forall props, value (TelemetryEnabled env props)
       = value (convertToBool (value (getFromConfig props telemetryEnabled))
                  telemetryEnabled true)).
Proof.
  split.
  - intros He. apply String.eqb_neq in He.
    assert (Hv : forall props, value (TelemetryEnabled env props)
                 = value (convertToBool (Getenv env "GAUGE_TELEMETRY_ENABLED")
                            telemetryEnabled true)).
    { intros props. now rewrite TelemetryEnabled_value, He. }
    split; [|split; [exact Hv|split]].
    + intros props props'. unfold TelemetryEnabled.
      change (GoStrings.ToUpper telemetryEnabled) with "GAUGE_TELEMETRY_ENABLED".
      now rewrite He.
    + intros b Hin props. rewrite Hv. apply ParseBool_spellings in Hin.
      unfold convertToBool. now rewrite Hin.
    + intros Hp props. rewrite Hv. unfold convertToBool. now rewrite Hp.
  - intros He props. now rewrite TelemetryEnabled_value, He.
Qed.

Lemma telemetry_environment_first_witness :
  let off : gmap string string := {[ "GAUGE_TELEMETRY_ENABLED" := " false " ]} in
  let junk : gmap string string := {[ "GAUGE_TELEMETRY_ENABLED" := "off" ]} in
  let yes : Properties := inl {[ "gauge_telemetry_enabled" := "true" ]} in
  let no : Properties := inl {[ "gauge_telemetry_enabled" := "false" ]} in
  value (TelemetryEnabled off yes) = false /\
  value (TelemetryEnabled junk no) = true /\
  value (TelemetryEnabled ∅ no) = false.
Proof.
  intros off junk yes no.
  destruct (telemetry_environment_first off) as (Hoff & _).
  destruct (telemetry_environment_first junk) as (Hjunk & _).
  destruct (telemetry_environment_first ∅) as (_ & H0).
  split; [|split].
  - destruct Hoff as (_ & _ & Hb & _); [discriminate|].
    apply (Hb false). vm_compute. tauto.
  - destruct Hjunk as (_ & _ & _ & Hbad); [discriminate|]. now apply Hbad.
  - rewrite (H0 eq_refl no). reflexivity.
Defined.

Lemma blank_not_number (w : ascii) :
  GoStrings.isAsciiSpace w = true ->
  Strconv.digitOf w = None /\ Ascii.eqb w "-" = false /\ Ascii.eqb w "+" = false.
Proof.
  destruct w as [[] [] [] [] [] [] [] []]; vm_compute; intros H;
    first [discriminate H | repeat split].
Qed.

Lemma parseDigits_trailing (w : ascii) (s : string) (acc : Z) :
  Strconv.digitOf w = None -> Strconv.parseDigits (s +:+ String w "") acc = None.
Proof.
  intros Hw. revert acc. induction s as [|c s IH]; intros acc.
  - rewrite StringFacts.append_nil_l. cbn [Strconv.parseDigits]. now rewrite Hw.
  - rewrite StringFacts.append_cons. cbn [Strconv.parseDigits].
    destruct (Strconv.digitOf c); [apply IH | reflexivity].
Qed.

Lemma Atoi_leading_blank (w : ascii) (s : string) :
  GoStrings.isAsciiSpace w = true -> Strconv.Atoi (String w s) = None.
Proof.
  intros Hw. destruct (blank_not_number w Hw) as (Hd & Hm & Hp).
  unfold Strconv.Atoi, Strconv.parseSigned. rewrite Hm, Hp.
  cbn [Strconv.parseDigits]. now rewrite Hd.
Qed.

Lemma Atoi_trailing_blank (w : ascii) (s : string) :
  GoStrings.isAsciiSpace w = true -> Strconv.Atoi (s +:+ String w "") = None.
Proof.
  intros Hw. destruct (blank_not_number w Hw) as (Hd & Hm & Hp).
  unfold Strconv.Atoi.
  assert (Hs : Strconv.parseSigned (s +:+ String w "") = None); [|now rewrite Hs].
  unfold Strconv.parseSigned. destruct s as [|c s].
  - cbn [String.append]. rewrite StringFacts.append_nil_l, Hm, Hp.
    cbn [Strconv.parseDigits]. now rewrite Hd.
  - rewrite StringFacts.append_cons.
    destruct (Ascii.eqb c "-"); [|destruct (Ascii.eqb c "+")].
    + pose proof (parseDigits_trailing w s 0 Hd) as H.
      destruct s as [|c' s].
      * rewrite StringFacts.append_nil_l in *. now rewrite H.
      * rewrite StringFacts.append_cons in *. now rewrite H.
    + pose proof (parseDigits_trailing w s 0 Hd) as H.
      destruct s as [|c' s].
      * rewrite StringFacts.append_nil_l in *. now rewrite H.
      * rewrite StringFacts.append_cons in *. now rewrite H.
    + rewrite <- StringFacts.append_cons. now apply parseDigits_trailing.
Qed.

(** X4: [convertToTime] does not trim its value: a value that starts or
    ends with a blank, a tab or a line break is not a number for it, and
    the default is returned, whatever stands next to the white space. *)
Theorem convertToTime_does_not_trim (w : ascii) (s : string)
    (defaultValue : Duration) (name : string) :
  GoStrings.isAsciiSpace w = true ->
  value (convertToTime (String w s) defaultValue name) = defaultValue /\
  value (convertToTime (s +:+ String w "") defaultValue name) = defaultValue.
Proof.
  intros Hw. unfold convertToTime.
  now rewrite (Atoi_leading_blank w s Hw), (Atoi_trailing_blank w s Hw).
Qed.

Lemma convertToTime_does_not_trim_witness :
  value (convertToTime " 5000" (seconds 25) runnerConnectionTimeout) = seconds 25 /\
  value (convertToTime "5000 " (seconds 25) runnerConnectionTimeout) = seconds 25.
Proof.
  apply (convertToTime_does_not_trim " " "5000" (seconds 25) runnerConnectionTimeout).
  reflexivity.
Defined.

(** X5: a timeout reader looks at its own property only.  Setting any
    other property leaves what it returns and what it logs unchanged, and
    setting its own property to a text that parses as [v] makes it return
    [v] milliseconds (when that fits a duration), whatever the properties
    held before. *)
Theorem timeout_reads_its_own_property (m : gmap string string) (k s : string) (v : Z) :
  (k <> runnerConnectionTimeout ->
     RunnerConnectionTimeout (inl (<[ k := s ]> m)) = RunnerConnectionTimeout (inl m)) /\
  (k <> pluginConnectionTimeout ->
     PluginConnectionTimeout (inl (<[ k := s ]> m)) = PluginConnectionTimeout (inl m)) /\
  (k <> pluginKillTimeOut ->
     PluginKillTimeout (inl (<[ k := s ]> m)) = PluginKillTimeout (inl m)) /\
  (Strconv.Atoi s = Some v -> in_range (milliseconds v) ->
     value (RunnerConnectionTimeout (inl (<[ runnerConnectionTimeout := s ]> m)))
       = milliseconds v /\
     value (PluginConnectionTimeout (inl (<[ pluginConnectionTimeout := s ]> m)))
       = milliseconds v /\
     value (PluginKillTimeout (inl (<[ pluginKillTimeOut := s ]> m)))
       = milliseconds v).
Proof.
  split; [|split; [|split]].
  - intros Hk. unfold RunnerConnectionTimeout, getFromConfig. now rewrite lookup_insert_ne.
  - intros Hk. unfold PluginConnectionTimeout, getFromConfig. now rewrite lookup_insert_ne.
  - intros Hk. unfold PluginKillTimeout, getFromConfig. now rewrite lookup_insert_ne.
  - intros Hs Hr.
    rewrite RunnerConnectionTimeout_value, PluginConnectionTimeout_value,
      PluginKillTimeout_value.
    unfold getFromConfig, value at 2 4 6. cbn [snd]. rewrite !lookup_insert_eq. cbn [default].
    repeat split; now apply (proj2 (proj2 (convertToTime_value s _ _)) v).
Qed.

Lemma timeout_reads_its_own_property_witness :
  let m : gmap string string := {[ "runner_connection_timeout" := "never" ]} in
  RunnerConnectionTimeout (inl (<[ "plugin_kill_timeout" := "100" ]> m))
    = RunnerConnectionTimeout (inl m) /\
  value (RunnerConnectionTimeout (inl (<[ "runner_connection_timeout" := "100" ]> m)))
    = milliseconds 100.
Proof.
  intros m.
  destruct (timeout_reads_its_own_property m "plugin_kill_timeout" "100" 100)
    as (Hother & _ & _ & Hown).
  split.
  - apply Hother. discriminate.
  - apply Hown; [reflexivity|]. unfold in_range. vm_compute. split; intros H; discriminate H.
Defined.

(** X6: [convertToBool] looks at its value with the white space around it
    removed: blanks, tabs and line breaks before and after a value do not
    change the result.  The result differs from the default only when what
    is left is one of the six spellings [strconv.ParseBool] accepts for the
    other value; and when what is left is such a spelling of [b], the
    result is [b]. *)
Theorem convertToBool_trims (l v r property : string) (defaultValue b : bool) :
  (blank l -> blank r ->
     value (convertToBool (l +:+ v +:+ r) property defaultValue)
       = value (convertToBool v property defaultValue)) /\
  (value (convertToBool v property defaultValue) <> defaultValue ->
     In (GoStrings.TrimSpace v) (spellings (negb defaultValue))) /\
  (In (GoStrings.TrimSpace v) (spellings b) ->
     value (convertToBool v property defaultValue) = b).
Proof.
  split; [|split].
  - intros Hl Hr. unfold convertToBool. rewrite (TrimSpace_padding l v r Hl Hr).
    now destruct (Strconv.ParseBool (GoStrings.TrimSpace v)).
  - unfold convertToBool.
    destruct (Strconv.ParseBool (GoStrings.TrimSpace v)) as [b'|] eqn:Hp; cbn.
    + intros Hne. apply ParseBool_spellings.
      rewrite Hp. f_equal. now destruct b', defaultValue.
    + congruence.
  - intros Hin. apply ParseBool_spellings in Hin. unfold convertToBool. now rewrite Hin.
Qed.

Lemma convertToBool_trims_witness :
  value (convertToBool ("  " +:+ "False" +:+ String (ascii_of_nat 9) Execution.nl)
           checkUpdates true) = false /\
  In (GoStrings.TrimSpace " 0 ") (spellings false) /\
  value (convertToBool " T" telemetryLoggingEnabled false) = true.
Proof.
  destruct (convertToBool_trims "  " "False" (String (ascii_of_nat 9) Execution.nl)
              checkUpdates true false) as (Hpad & _ & _).
  destruct (convertToBool_trims "" " 0 " "" checkUpdates true false) as (_ & Hne & _).
  destruct (convertToBool_trims "" " T" "" telemetryLoggingEnabled false true)
    as (_ & _ & Hin).
  split; [|split].
  - rewrite Hpad; [reflexivity| |]; repeat constructor.
  - apply Hne. discriminate.
  - apply Hin. vm_compute. tauto.
Defined.

Section ProjectRootFacts.

Variable GaugeProjectRootEnv : string.
Variable SetEnvVariable :
  string -> string -> gmap string string -> gmap string string + string.

Local Abbreviation SetProjectRoot := (SetProjectRoot GaugeProjectRootEnv).

(** X7: once [ProjectRoot] is set, [SetProjectRoot] neither reads its
    arguments nor looks for a root again: for any arguments and any
    behaviour of the root lookup it does the same thing, which is to export
    the root it already has.  It returns the environment [SetEnvVariable]
    makes for that root, or the untouched state and the error when the
    export fails, and in both cases it leaves [ProjectRoot] as it is. *)
Theorem SetProjectRoot_keeps_root (st : ProjectState)
    (lookup lookup' : string -> string + string) (args args' : list string) :
  ProjectRoot st <> "" ->
  SetProjectRoot lookup SetEnvVariable args st
    = SetProjectRoot lookup' SetEnvVariable args' st /\
  ProjectRoot (fst (SetProjectRoot lookup SetEnvVariable args st)) = ProjectRoot st /\
  match SetEnvVariable GaugeProjectRootEnv (ProjectRoot st) (environ st) with
  | inl env' =>
      SetProjectRoot lookup SetEnvVariable args st
        = ({| ProjectRoot := ProjectRoot st; environ := env' |}, None)
  | inr err => SetProjectRoot lookup SetEnvVariable args st = (st, Some err)
  end.
Proof.
  intros Hset. apply String.eqb_neq in Hset.
  unfold Config.SetProjectRoot. rewrite Hset. cbn [negb].
  split; [reflexivity|].
  unfold setCurrentProjectEnvVariable.
  destruct (SetEnvVariable GaugeProjectRootEnv (ProjectRoot st) (environ st));
    split; reflexivity.
Qed.

(** X8: while [ProjectRoot] is empty, [SetProjectRoot] looks the root up
    from its first argument alone (from the empty path when there is none).
    When the lookup fails the error is returned and nothing changes; when
    it succeeds [ProjectRoot] is the root found, also if exporting it
    fails; and the environment changes only by what [SetEnvVariable] does
    for the root found. *)
Theorem SetProjectRoot_first_argument (st : ProjectState)
    (lookup : string -> string + string) (arg : string) (rest : list string) :
  ProjectRoot st = "" ->
  SetProjectRoot lookup SetEnvVariable (arg :: rest) st
    = SetProjectRoot lookup SetEnvVariable [arg] st /\
  (forall err, lookup arg = inr err ->
     SetProjectRoot lookup SetEnvVariable (arg :: rest) st = (st, Some err)) /\
  (forall root, lookup arg = inl root ->
     ProjectRoot (fst (SetProjectRoot lookup SetEnvVariable (arg :: rest) st)) = root /\
     match SetEnvVariable GaugeProjectRootEnv root (environ st) with
     | inl env' =>
         SetProjectRoot lookup SetEnvVariable (arg :: rest) st
           = ({| ProjectRoot := root; environ := env' |}, None)
     | inr err =>
         SetProjectRoot lookup SetEnvVariable (arg :: rest) st
           = ({| ProjectRoot := root; environ := environ st |}, Some err)
     end) /\
  SetProjectRoot lookup SetEnvVariable [] st
    = SetProjectRoot lookup SetEnvVariable [""] st.
Proof.
  intros Hempty. unfold Config.SetProjectRoot. rewrite Hempty. cbn [String.eqb negb].
  split; [reflexivity|]. split; [|split; [|reflexivity]].
  - intros err Hl. now rewrite Hl.
  - intros root Hl. rewrite Hl. unfold setCurrentProjectEnvVariable. cbn [ProjectRoot environ].
    now destruct (SetEnvVariable GaugeProjectRootEnv root (environ st)).
Qed.

End ProjectRootFacts.

Lemma SetProjectRoot_keeps_root_witness :
  let st := {| ProjectRoot := "/work/demo"; environ := ∅ |} in
  SetProjectRoot "GAUGE_PROJECT_ROOT" Samples.rootOf Samples.export ["other"] st
    = SetProjectRoot "GAUGE_PROJECT_ROOT" (fun _ => inr "gone") Samples.export [] st /\
  SetProjectRoot "GAUGE_PROJECT_ROOT" Samples.rootOf Samples.export ["other"] st
    = ({| ProjectRoot := "/work/demo";
          environ := {[ "GAUGE_PROJECT_ROOT" := "/work/demo" ]} |}, None).
Proof.
  intros st.
  destruct (SetProjectRoot_keeps_root "GAUGE_PROJECT_ROOT" Samples.export st
              Samples.rootOf (fun _ => inr "gone") ["other"] [])
    as (Hsame & _ & Hexport).
  - discriminate.
  - split; [exact Hsame | exact Hexport].
Defined.

Lemma SetProjectRoot_first_argument_witness :
  let st := {| ProjectRoot := ""; environ := ∅ |} in
  SetProjectRoot "GAUGE_PROJECT_ROOT" Samples.rootOf Samples.export ["demo"; "x"] st
    = ({| ProjectRoot := "/work/demo";
          environ := {[ "GAUGE_PROJECT_ROOT" := "/work/demo" ]} |}, None) /\
  SetProjectRoot "GAUGE_PROJECT_ROOT" Samples.rootOf Samples.export [] st
    = (st, Some "Failed to find project directory").
Proof.
  intros st.
  destruct (SetProjectRoot_first_argument "GAUGE_PROJECT_ROOT" Samples.export st
              Samples.rootOf "demo" ["x"] eq_refl) as (_ & _ & Hok & _).
  destruct (SetProjectRoot_first_argument "GAUGE_PROJECT_ROOT" Samples.export st
              Samples.rootOf "" [] eq_refl) as (_ & Hfail & _ & Hnone).
  split.
  - destruct (Hok "/work/demo" eq_refl) as (_ & H). exact H.
  - rewrite Hnone. apply Hfail. reflexivity.
Defined.

End ConfigExtras.

(** ** More of [execution/parallelExecution.go] *)

Module StrategyExtras.

Import Execution Spec GoStrings StrategyFacts.

Lemma lowerByte_e (c : ascii) :
  lowerByte c = "e"%char <-> (c = "e"%char \/ c = upperOf "e"%char).
Proof. each_byte c. Qed.

Lemma lowerByte_g (c : ascii) :
  lowerByte c = "g"%char <-> (c = "g"%char \/ c = upperOf "g"%char).
Proof. each_byte c. Qed.

Lemma lowerByte_r (c : ascii) :
  lowerByte c = "r"%char <-> (c = "r"%char \/ c = upperOf "r"%char).
Proof. each_byte c. Qed.

Lemma ToLower_eager (s : string) : ToLower s = Eager <-> inAnyCase "eager" s.
Proof.
  unfold Eager.
  destruct s as [|c1 [|c2 [|c3 [|c4 [|c5 [|c6 s]]]]]]; cbn [ToLower inAnyCase];
    try (split; [intros H; discriminate H | tauto]).
  rewrite <- !lowerByte_e, <- StrategyFacts.lowerByte_a, <- lowerByte_g, <- lowerByte_r.
  split.
  - intros H. injection H as -> -> -> -> ->. tauto.
  - intros (-> & -> & -> & -> & -> & _). reflexivity.
Qed.

(** X9: [isValidStrategy] accepts exactly the strings that are ["lazy"] or
    ["eager"] in some letter case.  Every string [isLazy] accepts is valid
    and makes [run] start the lazy streams; every string
    [isValidStrategy] rejects, the empty one included, is still run, with
    the eager streams. *)
Theorem isValidStrategy_iff {Runner : Type}
    (runner_Start : Z -> Runner + string)
    (simpleExecute : SpecCollection -> Runner -> Z -> SuiteResult)
    (DistributeSpecs : list Specification -> Z -> list SpecCollection)
    (strategy : string) (e : parallelExecution) :
  (isValidStrategy strategy = true <->
     inAnyCase "lazy" strategy \/ inAnyCase "eager" strategy) /\
  (isLazy strategy = true ->
     isValidStrategy strategy = true /\
     streams runner_Start simpleExecute DistributeSpecs strategy e
       = executeLazily runner_Start simpleExecute e (numberOfStreams e)) /\
  (isValidStrategy strategy = false ->
     streams runner_Start simpleExecute DistributeSpecs strategy e
       = executeEagerly runner_Start simpleExecute DistributeSpecs e (numberOfStreams e)) /\
  isValidStrategy "" = false.
Proof.
  assert (Hv : isValidStrategy strategy
               = String.eqb (ToLower strategy) Lazy || String.eqb (ToLower strategy) Eager)
    by reflexivity.
  split; [|split; [|split]].
  - rewrite Hv, orb_true_iff, !String.eqb_eq, ToLower_lazy, ToLower_eager. reflexivity.
  - intros H. split.
    + unfold isLazy in H. rewrite Hv, H. reflexivity.
    + unfold streams. now rewrite H.
  - unfold streams, isLazy. rewrite Hv.
    destruct (String.eqb (ToLower strategy) Lazy); [discriminate | reflexivity].
  - reflexivity.
Qed.

Lemma isValidStrategy_iff_witness :
  isValidStrategy "EaGeR" = true /\ isValidStrategy "Lazy" = true /\
  streams Samples.firstStreamFails Samples.allPass Samples.onePerBucket
    "Lazy" Samples.coordinator
    = [startStream Samples.firstStreamFails Samples.allPass
         (specCollection Samples.coordinator) 1;
       startStream Samples.firstStreamFails Samples.allPass
         (specCollection Samples.coordinator) 2] /\
  streams Samples.firstStreamFails Samples.allPass Samples.onePerBucket
    "lazily" Samples.coordinator
    = [startSpecsExecution Samples.firstStreamFails Samples.allPass Samples.bucketA 1;
       startSpecsExecution Samples.firstStreamFails Samples.allPass Samples.bucketB 2].
Proof.
  destruct (isValidStrategy_iff Samples.firstStreamFails Samples.allPass
              Samples.onePerBucket "EaGeR" Samples.coordinator) as (He & _).
  destruct (isValidStrategy_iff Samples.firstStreamFails Samples.allPass
              Samples.onePerBucket "Lazy" Samples.coordinator) as (_ & Hl & _).
  destruct (isValidStrategy_iff Samples.firstStreamFails Samples.allPass
              Samples.onePerBucket "lazily" Samples.coordinator) as (_ & _ & Hb & _).
  split; [|split; [|split]].
  - apply He. right. vm_compute. tauto.
  - now apply Hl.
  - destruct (Hl eq_refl) as (_ & ->). reflexivity.
  - rewrite (Hb eq_refl). reflexivity.
Defined.

End StrategyExtras.

Module AggregationExtras.

Import Execution Spec GoInt GoIntFacts AggregationFacts.

Lemma SuiteResult_ext (r r' : SuiteResult) :
  SpecResults r = SpecResults r' -> PreSuite r = PreSuite r' ->
  PostSuite r = PostSuite r' -> IsFailed r = IsFailed r' ->
  SpecsFailedCount r = SpecsFailedCount r' -> ExecutionTime r = ExecutionTime r' ->
  UnhandledErrors r = UnhandledErrors r' -> Tags r = Tags r' ->
  Timestamp r = Timestamp r' -> SpecsSkippedCount r = SpecsSkippedCount r' ->
  r = r'.
Proof. destruct r, r'. cbn. intros. subst. reflexivity. Qed.

Lemma wrap64_add_r (a b : Z) : wrap64 (a + wrap64 b) = wrap64 (a + b).
Proof. rewrite Z.add_comm, wrap64_add_l. f_equal. lia. Qed.

Lemma sumZ_app (l1 l2 : list Z) : sumZ (l1 ++ l2) = sumZ l1 + sumZ l2.
Proof. unfold sumZ. induction l1 as [|x l1 IH]; cbn [foldr app]; lia. Qed.

Lemma lastNonNil_app {A} (l1 l2 : list (option A)) :
  lastNonNil (l1 ++ l2)
  = match lastNonNil l2 with Some y => Some y | None => lastNonNil l1 end.
Proof.
  induction l1 as [|o l1 IH]; cbn [app].
  - unfold lastNonNil at 3. cbn. now destruct (lastNonNil l2).
  - rewrite !lastNonNil_cons, IH. now destruct (lastNonNil l2).
Qed.

Section Batches.

Variables (ExecuteTags : string) (e : parallelExecution) (since : Config.Duration).

(** How each batch was aggregated: with any tags, coordinator and clock. *)
Variable inner : list SuiteResult -> SuiteResult.
Hypothesis inner_aggregates :
  forall rs, exists tags' e' since', inner rs = aggregateResults tags' e' since' rs.

Lemma batches_count (batches : list (list SuiteResult)) :
  wrap64 (sumZ (map SpecsFailedCount (map inner batches)))
  = wrap64 (sumZ (map SpecsFailedCount (concat batches))).
Proof.
  induction batches as [|b batches IH]; [reflexivity|].
  cbn [map concat]. rewrite map_app, sumZ_app.
  destruct (inner_aggregates b) as (t' & e' & s' & ->).
  rewrite agg_SpecsFailedCount.
  change (sumZ (?x :: ?l)) with (x + sumZ l).
  rewrite wrap64_add_l, <- wrap64_add_r, IH, wrap64_add_r. reflexivity.
Qed.

Lemma batches_concat {B} (f : SuiteResult -> list B) (batches : list (list SuiteResult)) :
  (forall rs, f (inner rs) = concat (map f rs)) ->
  concat (map f (map inner batches)) = concat (map f (concat batches)).
Proof.
  intros Hf. induction batches as [|b batches IH]; [reflexivity|].
  cbn [map concat]. now rewrite map_app, concat_app, Hf, IH.
Qed.

Lemma batches_flag (batches : list (list SuiteResult)) :
  existsb IsFailed (map inner batches) = existsb IsFailed (concat batches).
Proof.
  induction batches as [|b batches IH]; [reflexivity|].
  cbn [map concat existsb]. rewrite existsb_app, IH.
  destruct (inner_aggregates b) as (t' & e' & s' & ->).
  now rewrite agg_IsFailed.
Qed.

Lemma batches_hook (f : SuiteResult -> option HookFailure)
    (batches : list (list SuiteResult)) :
  (forall rs, f (inner rs) = lastNonNil (map f rs)) ->
  lastNonNil (map f (map inner batches)) = lastNonNil (map f (concat batches)).
Proof.
  intros Hf. induction batches as [|b batches IH]; [reflexivity|].
  cbn [map concat]. rewrite map_app, lastNonNil_app, lastNonNil_cons, IH, Hf.
  reflexivity.
Qed.

Lemma batches_aggregate (batches : list (list SuiteResult)) :
  aggregateResults ExecuteTags e since (map inner batches)
  = aggregateResults ExecuteTags e since (concat batches).
Proof.
  assert (Hres : concat (map SpecResults (map inner batches))
                 = concat (map SpecResults (concat batches))).
  { apply batches_concat. intros rs.
    destruct (inner_aggregates rs) as (t' & e' & s' & ->). apply agg_SpecResults. }
  apply SuiteResult_ext.
  - now rewrite !agg_SpecResults.
  - rewrite !agg_PreSuite. apply batches_hook. intros rs.
    destruct (inner_aggregates rs) as (t' & e' & s' & ->). apply agg_PreSuite.
  - rewrite !agg_PostSuite. apply batches_hook. intros rs.
    destruct (inner_aggregates rs) as (t' & e' & s' & ->). apply agg_PostSuite.
  - rewrite !agg_IsFailed. apply batches_flag.
  - rewrite !agg_SpecsFailedCount. apply batches_count.
  - destruct (agg_stamp ExecuteTags e since (map inner batches)) as (_ & _ & ->).
    now destruct (agg_stamp ExecuteTags e since (concat batches)) as (_ & _ & ->).
  - rewrite !agg_UnhandledErrors. apply batches_concat. intros rs.
    destruct (inner_aggregates rs) as (t' & e' & s' & ->). apply agg_UnhandledErrors.
  - destruct (agg_stamp ExecuteTags e since (map inner batches)) as (-> & _ & _).
    now destruct (agg_stamp ExecuteTags e since (concat batches)) as (-> & _ & _).
  - destruct (agg_stamp ExecuteTags e since (map inner batches)) as (_ & -> & _).
    now destruct (agg_stamp ExecuteTags e since (concat batches)) as (_ & -> & _).
  - rewrite !agg_SpecsSkippedCount. now rewrite Hres.
Qed.

End Batches.

(** X10: aggregation composes.  Aggregating the aggregates of batches of
    stream results, taken in order, gives the same suite result as
    aggregating all the stream results at once, whatever tags, start time
    and clock the batches were aggregated with. *)
Theorem aggregate_in_batches (ExecuteTags tags' : string) (e e' : parallelExecution)
    (since since' : Config.Duration) (batches : list (list SuiteResult)) :
  aggregateResults ExecuteTags e since (map (aggregateResults tags' e' since') batches)
  = aggregateResults ExecuteTags e since (concat batches).
Proof.
  apply batches_aggregate. intros rs. now exists tags', e', since'.
Qed.

(** X11: the execution time of the aggregate is the time elapsed since the
    coordinator's start, in whole milliseconds rounded down; it does not
    depend on the execution times the streams report. *)
Theorem aggregate_execution_time (ExecuteTags : string) (e : parallelExecution)
    (since : Config.Duration) (rs rs' : list SuiteResult) :
  0 <= since ->
  let t := ExecutionTime (aggregateResults ExecuteTags e since rs) in
  t * 1000000 <= since < (t + 1) * 1000000 /\
  ExecutionTime (aggregateResults ExecuteTags e since rs') = t.
Proof.
  intros Hs. cbv zeta.
  destruct (agg_stamp ExecuteTags e since rs) as (_ & _ & ->).
  destruct (agg_stamp ExecuteTags e since rs') as (_ & _ & ->).
  split; [|reflexivity].
  rewrite Z.quot_div_nonneg by lia.
  pose proof (Z.div_mod since 1000000 ltac:(lia)).
  pose proof (Z.mod_pos_bound since 1000000 ltac:(lia)). lia.
Qed.

Lemma aggregate_execution_time_witness :
  ExecutionTime (aggregateResults "" Samples.coordinator 2999999
                   [Samples.streamA; Samples.streamB]) = 2 /\
  ExecutionTime (aggregateResults "" Samples.coordinator 2999999 []) = 2.
Proof.
  destruct (aggregate_execution_time "" Samples.coordinator 2999999
              [Samples.streamA; Samples.streamB] []) as (Hb & Heq).
  - discriminate.
  - split; [|rewrite Heq]; reflexivity.
Defined.

End AggregationExtras.

Module RunExtras.

Import Execution Spec Samples StreamFacts SystemFacts AggregationFacts RunFacts.

Section Traces.

Context {Runner : Type}.
Variable runner_Start : Z -> Runner + string.
Variable simpleExecute : SpecCollection -> Runner -> Z -> SuiteResult.

Local Abbreviation startStream := (startStream runner_Start simpleExecute).
Local Abbreviation startSpecsExecution := (startSpecsExecution runner_Start simpleExecute).
Local Abbreviation startedRunners := (startedRunners runner_Start).

Lemma observe_concat {B} (f : Event Runner -> option B) (ts : list (Trace Runner)) :
  omap f (concat ts) = concat (map (omap f) ts).
Proof.
  induction ts as [|t ts IH]; [reflexivity|].
  cbn [concat map]. now rewrite omap_app, IH.
Qed.

(** What one worker starts, kills and executes. *)
Lemma worker_observed (w : M Runner unit) (s : SpecCollection) (stream : Z) :
  w = startStream s stream \/ w = startSpecsExecution s stream ->
  startsOf (trace w) = [stream] /\
  killedRunners (trace w) = startedRunners (trace w) /\
  executions (trace w)
    = match runner_Start stream with inl _ => [(s, stream)] | inr _ => [] end.
Proof.
  intros Hw. destruct (runner_Start stream) as [runner|err] eqn:H.
  - assert (Ht : trace w = [EvRunnerStart stream; EvExecute s runner stream; EvKill runner;
                            EvSend (simpleExecute s runner stream); EvWgDone]).
    { destruct Hw as [-> | ->];
        [now apply startStream_started | now apply startSpecsExecution_started]. }
    rewrite Ht. unfold Spec.startedRunners. cbn. now rewrite H.
  - destruct Hw as [-> | ->].
    + rewrite (startStream_failed _ _ s stream err H).
      unfold Spec.startedRunners. cbn. now rewrite H.
    + rewrite (startSpecsExecution_failed _ _ s stream err H).
      unfold Spec.startedRunners. cbn. now rewrite H.
Qed.

(** X12: no worker process is left behind.  The runners that the stream
    workers of a run kill are exactly the runners they started, each once
    and in the same order; and when the result channel is closed no worker
    has any event left to perform, so every one of these kills has
    happened by then. *)
Theorem every_started_runner_is_killed (workers : list (M Runner unit)) :
  Forall (isStreamWorker runner_Start simpleExecute) workers ->
  killedRunners (concat (map trace workers))
    = startedRunners (concat (map trace workers)) /\
  forall sys, steps (spawn (Z.of_nat (length workers)) workers) sys ->
    closed sys = true -> concat (pending sys) = [].
Proof.
  intros Hw. split.
  - unfold killedRunners, Spec.startedRunners. rewrite !observe_concat. f_equal.
    induction Hw as [|w l (s & stream & Hws) _ IH]; [reflexivity|].
    cbn [map]. rewrite IH. f_equal.
    now destruct (worker_observed w s stream Hws) as (_ & Hk & _).
  - intros sys Hsteps Hclosed.
    assert (Honce : Forall (fun w => reportsOnce (trace w)) workers).
    { eapply Forall_impl; [exact Hw|]. intros w (s & stream & [-> | ->]).
      - apply startStream_reportsOnce.
      - apply startSpecsExecution_reportsOnce. }
    pose proof (steps_invariant _ _ _ (spawn_invariant workers Honce) Hsteps) as Hinv.
    now apply (inv_closed _ _ Hinv).
Qed.

Lemma seq_streams (f : Z -> M Runner unit) (s : SpecCollection) (a n : nat) :
  (forall stream, f stream = startStream s stream) ->
  startsOf (concat (map trace (map (fun i => f (Z.of_nat i + 1)) (seq a n))))
    = map (fun i => Z.of_nat i + 1) (seq a n) /\
  Forall (fun p => fst p = s)
    (executions (concat (map trace (map (fun i => f (Z.of_nat i + 1)) (seq a n))))).
Proof.
  intros Hf. revert a. induction n as [|n IH]; intros a; [split; [reflexivity | constructor]|].
  cbn [seq map concat]. unfold startsOf, executions in *.
  rewrite !omap_app. destruct (IH (S a)) as (IH1 & IH2).
  destruct (worker_observed (f (Z.of_nat a + 1)) s (Z.of_nat a + 1)
              (or_introl (Hf _))) as (Hs & _ & He).
  unfold startsOf, executions in Hs, He. rewrite Hs, He, IH1. split; [reflexivity|].
  apply Forall_app. split; [|exact IH2].
  destruct (runner_Start (Z.of_nat a + 1)); repeat constructor.
Qed.

Lemma imap_streams (buckets : list SpecCollection) (a : nat) :
  let ws := imap (fun i s => startSpecsExecution s (Z.of_nat (a + i) + 1)) buckets in
  startsOf (concat (map trace ws))
    = map (fun i => Z.of_nat i + 1) (seq a (length buckets)) /\
  forall s stream, In (s, stream) (executions (concat (map trace ws))) ->
    exists i, stream = Z.of_nat (a + i) + 1 /\ buckets !! i = Some s.
Proof.
  cbv zeta. revert a. induction buckets as [|b buckets IH]; intros a.
  - split; [reflexivity|]. intros s stream [].
  - rewrite imap_cons. cbn [map concat length seq].
    unfold startsOf, executions in *. rewrite !omap_app.
    assert (Hext : imap ((fun i s => startSpecsExecution s (Z.of_nat (a + i) + 1)) ∘ S) buckets
                   = imap (fun i s => startSpecsExecution s (Z.of_nat (S a + i) + 1)) buckets).
    { apply imap_ext. intros i x _. cbn. do 2 f_equal. lia. }
    rewrite Hext. destruct (IH (S a)) as (IH1 & IH2).
    destruct (worker_observed (startSpecsExecution b (Z.of_nat (a + 0) + 1)) b
                (Z.of_nat (a + 0) + 1) (or_intror eq_refl)) as (Hs & _ & He).
    unfold startsOf, executions in Hs, He. rewrite Hs, He, IH1.
    split; [cbn [app]; now rewrite Nat.add_0_r|].
    intros s stream Hin. apply in_app_or in Hin as [Hin|Hin].
    + exists 0%nat. destruct (runner_Start (Z.of_nat (a + 0) + 1)); [|destruct Hin].
      destruct Hin as [[= <- <-]|[]]. split; reflexivity.
    + destruct (IH2 s stream Hin) as (i & -> & Hi). exists (S i). split; [f_equal; lia | exact Hi].
Qed.

End Traces.

Section Surplus.

Context {Runner : Type}.

Implicit Types (sys : System Runner).

(** A wait group that was raised by more than the number of goroutines
    started never comes down to zero. *)
Lemma step_surplus (d : Z) sys sys' :
  0 < d ->
  closed sys = false /\ wg sys = d + Z.of_nat (dones (concat (pending sys))) ->
  step sys sys' ->
  closed sys' = false /\ wg sys' = d + Z.of_nat (dones (concat (pending sys'))).
Proof.
  intros Hd (Hopen & Hwg) Hstep.
  destruct Hstep as [sys i ev t _ Hi | sys _ Hzero]; [|lia].
  destruct (pending_split _ _ _ _ Hi) as (l1 & l2 & Hl & Hins).
  rewrite perform_closed, perform_wg, perform_pending, Hins. split; [exact Hopen|].
  rewrite Hl in Hwg. rewrite concat_app, concat_cons, !dones_app, dones_cons in Hwg.
  rewrite concat_app, concat_cons, !dones_app. destruct (isDone ev); lia.
Qed.

Lemma steps_surplus (d : Z) sys sys' :
  0 < d ->
  closed sys = false /\ wg sys = d + Z.of_nat (dones (concat (pending sys))) ->
  steps sys sys' ->
  closed sys' = false /\ wg sys' = d + Z.of_nat (dones (concat (pending sys'))).
Proof.
  intros Hd Hinv Hsteps. induction Hsteps as [|s1 s2 s3 Hstep _ IH]; [exact Hinv|].
  apply IH. eapply step_surplus; eassumption.
Qed.

(** Such a system runs until its goroutines are done and then stays as it
    is, open. *)
Lemma surplus_stuck (d : Z) sys :
  0 < d ->
  closed sys = false /\ wg sys = d + Z.of_nat (dones (concat (pending sys))) ->
  exists sys', steps sys sys' /\ closed sys' = false /\ forall sys'', ~ step sys' sys''.
Proof.
  intros Hd. remember (remaining sys) as n eqn:Hn. revert sys Hn.
  induction n as [n IH] using lt_wf_ind. intros sys Hn Hinv.
  destruct (all_empty_or_ready (pending sys)) as [Hnil|(i & ev & t & Hi)].
  - exists sys. split; [constructor|]. split; [tauto|].
    intros sys'' Hstep. destruct Hinv as (Hopen & Hwg).
    destruct Hstep as [sys j ev t _ Hj | sys _ Hzero].
    + destruct (pending_split _ _ _ _ Hj) as (l1 & l2 & Hl & _).
      rewrite Hl, concat_app, concat_cons in Hnil.
      apply app_eq_nil in Hnil as (_ & Hnil). discriminate Hnil.
    + rewrite Hnil in Hwg. cbn in Hwg. lia.
  - assert (Hstep : step sys (perform ev sys (<[i:=t]> (pending sys))))
      by (apply step_event; tauto).
    pose proof (step_remaining _ _ Hstep) as Hrem.
    destruct (IH (remaining (perform ev sys (<[i:=t]> (pending sys)))) ltac:(lia) _ eq_refl
                 (step_surplus d _ _ Hd Hinv Hstep)) as (sys' & Hsteps & Hrest).
    exists sys'. split; [econstructor; eassumption | exact Hrest].
Qed.

End Surplus.

Section Runs.

Context {Runner : Type}.
Variable runner_Start : Z -> Runner + string.
Variable simpleExecute : SpecCollection -> Runner -> Z -> SuiteResult.
Variable DistributeSpecs : list Specification -> Z -> list SpecCollection.

Local Abbreviation runSystem := (runSystem runner_Start simpleExecute DistributeSpecs).
Local Abbreviation run := (run runner_Start simpleExecute DistributeSpecs).
Local Abbreviation lazyReports := (lazyReports runner_Start simpleExecute).
Local Abbreviation eagerReports := (eagerReports runner_Start simpleExecute).

Lemma invariant_run (reports : list SuiteResult) (Strategy ExecuteTags : string)
    (e : parallelExecution) (since : Config.Duration) :
  invariant reports (runSystem Strategy e) ->
  (exists result, run Strategy ExecuteTags e since result) /\
  (forall sys, steps (runSystem Strategy e) sys ->
     closed sys = false -> exists sys', step sys sys') /\
  (forall sys, steps (runSystem Strategy e) sys ->
     closed sys = true -> Permutation (received sys) reports).
Proof.
  intros Hinv. split; [|split].
  - destruct (closes _ _ Hinv) as (sys & Hsteps & Hclosed).
    exists (aggregateResults ExecuteTags e since (received sys)). now constructor.
  - intros sys Hsteps. apply (progress reports). eapply steps_invariant; eassumption.
  - intros sys Hsteps. apply closed_received. eapply steps_invariant; eassumption.
Qed.

(** X13: a lazy run with a requested stream count that is not negative
    always ends: while the channel is open something can move, a result is
    returned, and by the time the channel is closed the receive loop holds
    exactly the reports of the streams 1 to min(R, S), one each, in
    whatever order they arrived. *)
Theorem lazy_run_completes (Strategy ExecuteTags : string) (e : parallelExecution)
    (since : Config.Duration) :
  isLazy Strategy = true ->
  0 <= numberOfExecutionStreams e ->
  let n := Z.to_nat (Z.min (numberOfExecutionStreams e) (Size (specCollection e))) in
  (exists result, run Strategy ExecuteTags e since result) /\
  (forall sys, steps (runSystem Strategy e) sys ->
     closed sys = false -> exists sys', step sys sys') /\
  (forall sys, steps (runSystem Strategy e) sys -> closed sys = true ->
     Permutation (received sys) (lazyReports (specCollection e) n) /\
     length (received sys) = n).
Proof.
  intros Hs HR n.
  assert (Hn : numberOfStreams e
               = Z.min (numberOfExecutionStreams e) (Size (specCollection e))).
  { unfold numberOfStreams.
    destruct (Z.gtb_spec (numberOfExecutionStreams e) (Size (specCollection e))); lia. }
  assert (H0 : 0 <= numberOfStreams e).
  { rewrite Hn. pose proof (StreamCount.Size_nonneg (specCollection e)). lia. }
  pose proof (lazy_run_invariant runner_Start simpleExecute DistributeSpecs Strategy e Hs H0)
    as Hinv.
  rewrite Hn in Hinv. fold n in Hinv.
  destruct (invariant_run _ Strategy ExecuteTags e since Hinv) as (Hex & Hprog & Hrecv).
  split; [exact Hex|]. split; [exact Hprog|].
  intros sys Hsteps Hclosed. pose proof (Hrecv sys Hsteps Hclosed) as Hp.
  split; [exact Hp|]. rewrite (Permutation_length Hp).
  unfold Spec.lazyReports. now rewrite length_map, length_seq.
Qed.

(** X14: an eager run depends on the distribution making as many buckets
    as it was asked for.  If it does, the run ends and the receive loop
    holds exactly the reports of the buckets' streams.  If it makes fewer,
    the wait group never reaches zero: the channel is never closed, no
    result is ever returned, and once the streams are done nothing can move
    any more. *)
Theorem eager_run_needs_every_bucket (Strategy ExecuteTags : string)
    (e : parallelExecution) (since : Config.Duration) :
  isLazy Strategy = false ->
  let buckets := DistributeSpecs (Specs (specCollection e)) (numberOfStreams e) in
  (Z.of_nat (length buckets) = numberOfStreams e ->
     (exists result, run Strategy ExecuteTags e since result) /\
     (forall sys, steps (runSystem Strategy e) sys -> closed sys = true ->
        Permutation (received sys) (eagerReports buckets))) /\
  (Z.of_nat (length buckets) < numberOfStreams e ->
     (forall sys, steps (runSystem Strategy e) sys -> closed sys = false) /\
     (forall result, ~ run Strategy ExecuteTags e since result) /\
     (exists sys, steps (runSystem Strategy e) sys /\ forall sys', ~ step sys sys')).
Proof.
  intros Hs buckets. split.
  - intros Hlen.
    pose proof (eager_run_invariant runner_Start simpleExecute DistributeSpecs
                  Strategy e Hs Hlen) as Hinv.
    destruct (invariant_run _ Strategy ExecuteTags e since Hinv) as (Hex & _ & Hrecv).
    split; [exact Hex | exact Hrecv].
  - intros Hlt.
    set (d := numberOfStreams e - Z.of_nat (length buckets)).
    assert (Hinit : closed (runSystem Strategy e) = false /\
                    wg (runSystem Strategy e)
                    = d + Z.of_nat (dones (concat (pending (runSystem Strategy e))))).
    { unfold Execution.runSystem, streams. rewrite Hs. split; [reflexivity|].
      cbn [spawn wg pending].
      destruct (executeEagerly_workers runner_Start simpleExecute DistributeSpecs e
                  (numberOfStreams e)) as (Hl & Hw & _).
      fold buckets in Hl. unfold d. rewrite <- Hl.
      set (ws := executeEagerly runner_Start simpleExecute DistributeSpecs e
                   (numberOfStreams e)) in *.
      assert (Hd : dones (concat (map trace ws)) = length ws).
      { clear - Hw. induction Hw as [|w l Hr _ IH]; [reflexivity|].
        cbn [map concat length]. rewrite dones_app, (reportsOnce_dones _ Hr), IH. lia. }
      rewrite Hd. lia. }
    assert (Hopen : forall sys, steps (runSystem Strategy e) sys -> closed sys = false).
    { intros sys Hsteps. apply (steps_surplus d _ _ ltac:(lia) Hinit Hsteps). }
    split; [exact Hopen|]. split.
    + intros result Hrun. destruct Hrun as [sys Hsteps Hclosed].
      rewrite (Hopen sys Hsteps) in Hclosed. discriminate Hclosed.
    + destruct (surplus_stuck d _ ltac:(lia) Hinit) as (sys & Hsteps & _ & Hstuck).
      now exists sys.
Qed.

End Runs.

Section MoreRuns.

Context {Runner : Type}.
Variable runner_Start : Z -> Runner + string.
Variable simpleExecute : SpecCollection -> Runner -> Z -> SuiteResult.
Variable DistributeSpecs : list Specification -> Z -> list SpecCollection.

Local Abbreviation runSystem := (runSystem runner_Start simpleExecute DistributeSpecs).
Local Abbreviation run := (run runner_Start simpleExecute DistributeSpecs).
Local Abbreviation streams := (streams runner_Start simpleExecute DistributeSpecs).
Local Abbreviation executeLazily := (executeLazily runner_Start simpleExecute).
Local Abbreviation executeEagerly :=
  (executeEagerly runner_Start simpleExecute DistributeSpecs).

(** X15: streams are numbered from 1, and every stream starts one runner,
    for the reporter of its own number.  In a lazy run every execution is
    handed the whole collection; in an eager run an execution by stream
    [i+1] is handed bucket [i] and no other. *)
Theorem stream_numbers (e : parallelExecution) (n : Z) :
  let buckets := DistributeSpecs (Specs (specCollection e)) n in
  (startsOf (concat (map trace (executeLazily e n))) = streamNumbers (Z.to_nat n) /\
   Forall (fun p => fst p = specCollection e)
     (executions (concat (map trace (executeLazily e n))))) /\
  (startsOf (concat (map trace (executeEagerly e n))) = streamNumbers (length buckets) /\
   forall s stream, In (s, stream) (executions (concat (map trace (executeEagerly e n)))) ->
     exists i, stream = Z.of_nat i + 1 /\ buckets !! i = Some s).
Proof.
  intros buckets. split.
  - apply (seq_streams runner_Start simpleExecute
             (fun stream => startStream runner_Start simpleExecute (specCollection e) stream)).
    reflexivity.
  - apply (imap_streams runner_Start simpleExecute buckets 0).
Qed.

Lemma streams_are_workers (Strategy : string) (e : parallelExecution) :
  Forall (isStreamWorker runner_Start simpleExecute) (streams Strategy e).
Proof.
  unfold Execution.streams. destruct (isLazy Strategy).
  - unfold Execution.executeLazily.
    induction (seq 0 (Z.to_nat (numberOfStreams e))) as [|i l IH]; constructor; [|exact IH].
    eexists _, _. now left.
  - unfold Execution.executeEagerly. apply Forall_lookup. intros i w Hi.
    rewrite list_lookup_imap in Hi.
    destruct (DistributeSpecs _ _ !! i) as [b|]; [|discriminate Hi].
    injection Hi as <-. eexists _, _. now right.
Qed.

Lemma sends_length (workers : list (M Runner unit)) :
  Forall (isStreamWorker runner_Start simpleExecute) workers ->
  length (sends (concat (map trace workers))) = length workers.
Proof.
  induction 1 as [|w l (s & stream & Hws) _ IH]; [reflexivity|].
  cbn [map concat length]. rewrite sends_app, length_app, IH.
  destruct Hws as [-> | ->].
  - now rewrite startStream_sends.
  - now rewrite startSpecsExecution_sends.
Qed.

Lemma no_runner_no_execution (workers : list (M Runner unit)) :
  (forall stream, exists err, runner_Start stream = inr err) ->
  Forall (isStreamWorker runner_Start simpleExecute) workers ->
  executions (concat (map trace workers)) = [] /\
  Forall (fun r => exists err, r = SuiteResult_withErrors [err])
    (sends (concat (map trace workers))).
Proof.
  intros Hno Hw. induction Hw as [|w l (s & stream & Hws) _ (IH1 & IH2)].
  - split; [reflexivity | constructor].
  - cbn [map concat]. unfold executions in *. rewrite omap_app, sends_app, IH1.
    destruct (Hno stream) as (err & Herr).
    destruct (worker_observed runner_Start simpleExecute w s stream Hws) as (_ & _ & He).
    unfold executions in He. rewrite He, Herr. split; [reflexivity|].
    apply Forall_app. split; [|exact IH2].
    destruct Hws as [-> | ->].
    + rewrite (startStream_failed _ _ s stream err Herr). repeat constructor. now eexists.
    + rewrite (startSpecsExecution_failed _ _ s stream err Herr). repeat constructor.
      now eexists.
Qed.

Lemma aggregate_only_failures (ExecuteTags : string) (e : parallelExecution)
    (since : Config.Duration) (rs : list SuiteResult) :
  Forall (fun r => exists err, r = SuiteResult_withErrors [err]) rs ->
  let result := aggregateResults ExecuteTags e since rs in
  IsFailed result = false /\ SpecResults result = [] /\ SpecsFailedCount result = 0 /\
  length (UnhandledErrors result) = length rs.
Proof.
  intros Hrs. cbv zeta.
  rewrite agg_IsFailed, agg_SpecResults, agg_SpecsFailedCount, agg_UnhandledErrors.
  induction Hrs as [|r l (err & ->) _ (IH1 & IH2 & IH3 & IH4)]; [repeat split|].
  cbn [map existsb concat SuiteResult_withErrors IsFailed SpecResults SpecsFailedCount
         UnhandledErrors orb app length].
  split; [exact IH1|]. split; [exact IH2|]. split; [|now rewrite IH4].
  change (sumZ (0 :: ?x)) with (0 + sumZ x). now rewrite Z.add_0_l.
Qed.

(** X16: when no runner can be started at all, a run that ends (a lazy one
    with a requested count that is not negative, or an eager one whose
    distribution made as many buckets as streams) executes nothing and
    still returns an aggregate that is not marked as failed: no spec
    results, no failed specs, and one unhandled error per stream. *)
Theorem run_without_runners (Strategy ExecuteTags : string) (e : parallelExecution)
    (since : Config.Duration) :
  (forall stream, exists err, runner_Start stream = inr err) ->
  (isLazy Strategy = true /\ 0 <= numberOfExecutionStreams e) \/
  (isLazy Strategy = false /\
   Z.of_nat (length (DistributeSpecs (Specs (specCollection e)) (numberOfStreams e)))
   = numberOfStreams e) ->
  executions (concat (map trace (streams Strategy e))) = [] /\
  (exists result, run Strategy ExecuteTags e since result) /\
  (forall result, run Strategy ExecuteTags e since result ->
     IsFailed result = false /\ SpecResults result = [] /\ SpecsFailedCount result = 0 /\
     Z.of_nat (length (UnhandledErrors result)) = numberOfStreams e).
Proof.
  intros Hno Hends.
  destruct (no_runner_no_execution (streams Strategy e) Hno (streams_are_workers Strategy e))
    as (Hexec & Hfail).
  split; [exact Hexec|].
  assert (Hinv : invariant (sends (concat (map trace (streams Strategy e))))
                   (runSystem Strategy e) /\
                 Z.of_nat (length (streams Strategy e)) = numberOfStreams e).
  { destruct Hends as [(Hs & HR) | (Hs & Hlen)].
    - assert (H0 : 0 <= numberOfStreams e).
      { unfold numberOfStreams. pose proof (StreamCount.Size_nonneg (specCollection e)).
        destruct (Z.gtb_spec (numberOfExecutionStreams e) (Size (specCollection e))); lia. }
      pose proof (lazy_run_invariant runner_Start simpleExecute DistributeSpecs
                    Strategy e Hs H0) as Hinv.
      unfold Execution.streams. rewrite Hs.
      destruct (executeLazily_workers runner_Start simpleExecute e (numberOfStreams e))
        as (Hl & _ & Hr).
      rewrite Hr, Hl. split; [exact Hinv | lia].
    - pose proof (eager_run_invariant runner_Start simpleExecute DistributeSpecs
                    Strategy e Hs Hlen) as Hinv.
      unfold Execution.streams. rewrite Hs.
      destruct (executeEagerly_workers runner_Start simpleExecute DistributeSpecs e
                  (numberOfStreams e)) as (Hl & _ & Hr).
      rewrite Hr, Hl. split; [exact Hinv | exact Hlen]. }
  destruct Hinv as (Hinv & Hcount).
  destruct (invariant_run runner_Start simpleExecute DistributeSpecs _ Strategy ExecuteTags
              e since Hinv) as (Hex & _ & Hrecv).
  split; [exact Hex|].
  intros result Hrun. destruct Hrun as [sys Hsteps Hclosed].
  pose proof (Hrecv sys Hsteps Hclosed) as Hp.
  assert (Hall : Forall (fun r => exists err, r = SuiteResult_withErrors [err]) (received sys))
    by now rewrite Hp.
  destruct (aggregate_only_failures ExecuteTags e since (received sys) Hall)
    as (H1 & H2 & H3 & H4).
  split; [exact H1|]. split; [exact H2|]. split; [exact H3|].
  rewrite H4, (Permutation_length Hp), <- Hcount. f_equal.
  apply sends_length, streams_are_workers.
Qed.

End MoreRuns.

Section NothingToRun.

Context {Runner : Type}.
Variable runner_Start : Z -> Runner + string.
Variable simpleExecute : SpecCollection -> Runner -> Z -> SuiteResult.
Variable DistributeSpecs : list Specification -> Z -> list SpecCollection.

Local Abbreviation runSystem := (runSystem runner_Start simpleExecute DistributeSpecs).
Local Abbreviation run := (run runner_Start simpleExecute DistributeSpecs).
Local Abbreviation streams := (streams runner_Start simpleExecute DistributeSpecs).

(** X17: with no stream to start (an empty collection and a requested
    count that is not negative, or a requested count of zero), a lazy run,
    or an eager run whose distribution makes no bucket, starts no goroutine
    and ends at once with the empty aggregate: not failed, no results, no
    errors, stamped with the tags, the start time and the elapsed time. *)
Theorem run_of_nothing (Strategy ExecuteTags : string) (e : parallelExecution)
    (since : Config.Duration) :
  numberOfStreams e = 0 ->
  isLazy Strategy = true \/ DistributeSpecs (Specs (specCollection e)) 0 = [] ->
  streams Strategy e = [] /\
  (exists result, run Strategy ExecuteTags e since result) /\
  (forall result, run Strategy ExecuteTags e since result ->
     result = {| SpecResults := []; PreSuite := None; PostSuite := None;
                 IsFailed := false; SpecsFailedCount := 0;
                 ExecutionTime := Z.quot since 1000000; UnhandledErrors := [];
                 Tags := ExecuteTags; Timestamp := startTime e;
                 SpecsSkippedCount := 0 |}).
Proof.
  intros Hn Hnone.
  assert (Hs : streams Strategy e = []).
  { unfold Execution.streams. rewrite Hn. destruct (isLazy Strategy) eqn:Hl.
    - reflexivity.
    - unfold executeEagerly. destruct Hnone as [H|H]; [discriminate H | now rewrite H]. }
  split; [exact Hs|].
  assert (Hinv : invariant [] (runSystem Strategy e)).
  { unfold Execution.runSystem. rewrite Hs, Hn.
    apply (spawn_invariant (Runner:=Runner) []). constructor. }
  destruct (invariant_run runner_Start simpleExecute DistributeSpecs _ Strategy ExecuteTags
              e since Hinv) as (Hex & _ & Hrecv).
  split; [exact Hex|].
  intros result Hrun. destruct Hrun as [sys Hsteps Hclosed].
  pose proof (Hrecv sys Hsteps Hclosed) as Hp.
  apply Permutation_nil_r in Hp. rewrite Hp. reflexivity.
Qed.

End NothingToRun.

Lemma every_started_runner_is_killed_witness :
  let workers := [startSpecsExecution firstStreamFails allPass bucketA 1;
                  startSpecsExecution firstStreamFails allPass bucketB 2;
                  startStream firstStreamFails allPass bucketB 3] in
  killedRunners (concat (map trace workers)) = [2; 3] /\
  startedRunners firstStreamFails (concat (map trace workers)) = [2; 3].
Proof.
  intros workers.
  destruct (every_started_runner_is_killed firstStreamFails allPass workers) as (Hk & _).
  - repeat constructor.
    + exists bucketA, 1. now right.
    + exists bucketB, 2. now right.
    + exists bucketB, 3. now left.
  - split; [rewrite Hk|]; reflexivity.
Defined.

Lemma lazy_run_completes_witness :
  (exists result, run firstStreamFails allPass onePerBucket "LAZY" "" coordinator 0 result) /\
  (forall sys, steps (runSystem firstStreamFails allPass onePerBucket "LAZY" coordinator) sys ->
     closed sys = true -> length (received sys) = 2%nat).
Proof.
  destruct (lazy_run_completes firstStreamFails allPass onePerBucket "LAZY" "" coordinator 0)
    as (Hex & _ & Hrecv).
  - reflexivity.
  - discriminate.
  - split; [exact Hex|]. intros sys Hsteps Hclosed.
    now destruct (Hrecv sys Hsteps Hclosed) as (_ & Hlen).
Defined.

Lemma eager_run_needs_every_bucket_witness :
  (exists result, run firstStreamFails allPass onePerBucket "eager" "" coordinator 0 result) /\
  (forall result, ~ run firstStreamFails allPass oneBucket "eager" "" coordinator 0 result).
Proof.
  destruct (eager_run_needs_every_bucket firstStreamFails allPass onePerBucket
              "eager" "" coordinator 0 eq_refl) as (Hall & _).
  destruct (eager_run_needs_every_bucket firstStreamFails allPass oneBucket
              "eager" "" coordinator 0 eq_refl) as (_ & Hfew).
  split.
  - now destruct (Hall eq_refl) as (Hex & _).
  - now destruct (Hfew eq_refl) as (_ & Hnever & _).
Defined.

Lemma run_without_runners_witness :
  exists result,
    run noRunner allPass onePerBucket "lazy" "" coordinator 0 result /\
    IsFailed result = false /\ SpecResults result = [] /\
    length (UnhandledErrors result) = 2%nat.
Proof.
  destruct (run_without_runners noRunner allPass onePerBucket "lazy" "" coordinator 0)
    as (_ & (result & Hrun) & Hall).
  - intros stream. now exists "no runner found".
  - left. split; [reflexivity | discriminate].
  - exists result. split; [exact Hrun|].
    destruct (Hall result Hrun) as (H1 & H2 & _ & H4).
    split; [exact H1|]. split; [exact H2|].
    apply Nat2Z.inj. rewrite H4. reflexivity.
Defined.

Lemma run_of_nothing_witness :
  streams firstStreamFails allPass onePerBucket "eager" idle = [] /\
  exists result,
    run firstStreamFails allPass onePerBucket "eager" "smoke" idle 1500000 result /\
    ExecutionTime result = 1 /\ IsFailed result = false.
Proof.
  destruct (run_of_nothing firstStreamFails allPass onePerBucket "eager" "smoke" idle 1500000)
    as (Hs & (result & Hrun) & Hall).
  - reflexivity.
  - now right.
  - split; [exact Hs|]. exists result. split; [exact Hrun|].
    rewrite (Hall result Hrun). split; reflexivity.
Defined.

End RunExtras.
